(** * BookStore data-access layer: a shallow embedding of [app/crud.py]

    The five functions of [app/crud.py] are embedded as computations over
    a SQLAlchemy-style session: a unit of work that holds the Python
    objects it created or loaded, on top of the [book] table of the
    engine.  [app/models.py] and [app/schemas.py] give the record types,
    [app/database.py] the scoped session.

    What the source leaves to its libraries is modelled as follows.
    - [datetime.utcnow] is a read of the wall clock.  The world carries
      the sequence of readings the clock will give ([clock]) and how many
      were consumed ([ticks]); nothing is assumed of the readings unless
      a theorem says so.
    - The engine is the default of [app/database.py], SQLite: an
      [INTEGER PRIMARY KEY] left unset takes one more than the largest
      key in use (1 in an empty table), rows come back in storage order,
      a negative [LIMIT] means no limit and a negative [OFFSET] means 0.
      [crud.py] never inserts a row with a key of its own, so the keys
      of the table are the ones SQLite generated: positive 64-bit
      integers.  Two statements fall outside the model and are marked
      as such ([Unmodelled]): the insert of an object that carries a
      key, and the insert into a table whose largest key is the largest
      64-bit integer (SQLite then draws keys at random).
    - Python integers are unbounded; an SQLite [INTEGER] has 64 bits.
      Binding an integer outside that range as a parameter of a
      statement (a key, a year, an offset, a limit) raises
      [OverflowError] before the statement runs.
    - A Python float that is NaN is bound as [NULL]; the float [-0.0]
      is read back as [0.0]; every other float is stored as it is.
    - Columns are [NOT NULL] unless the model annotates them [Optional]:
      only [description] (and the key before the insert) may be null.
    - Strings are the UTF-8 bytes of the Python string.
    - Autoflush is left out: no function of [crud.py] queries while it
      has unflushed changes. *)

From Stdlib Require Import ZArith List String Bool Lia Sorted Eqdep_dec.
From Stdlib Require Import Floats.PrimFloat Floats.FloatClass.
From stdpp Require Import base option list.
Import ListNotations.
Open Scope Z_scope.

(** ** Data model *)

(** [datetime], in microseconds since the epoch (its resolution). *)
Definition datetime := Z.

(** *** What SQLite holds *)

(** The 64-bit range of an SQLite [INTEGER]. *)
Definition in_int64 (z : Z) : bool := (- 2 ^ 63 <=? z) && (z <? 2 ^ 63).

Definition int64 (z : Z) : Prop := - 2 ^ 63 <= z < 2 ^ 63.

(** A stored [INTEGER]. *)
Record integer := mk_integer {
  int_val : Z;
  int_ok : in_int64 int_val = true
}.

(** Binding a Python integer as a parameter: [None] is the
    [OverflowError] of the driver. *)
Definition bind_int (z : Z) : option integer :=
  (if in_int64 z as b return in_int64 z = b -> option integer
   then fun H => Some (mk_integer z H)
   else fun _ => None) eq_refl.

(** A stored key: a positive 64-bit integer. *)
Definition in_rowid (z : Z) : bool := (1 <=? z) && (z <? 2 ^ 63).

Record rowid := mk_rowid {
  key_val : Z;
  key_ok : in_rowid key_val = true
}.

Definition bind_key (z : Z) : option rowid :=
  (if in_rowid z as b return in_rowid z = b -> option rowid
   then fun H => Some (mk_rowid z H)
   else fun _ => None) eq_refl.

(** [math.isnan]. *)
Definition isnan (f : float) : bool :=
  match classify f with
  | NaN => true
  | _ => false
  end.

(** The floats a [REAL] column gives back: any float but NaN and
    [-0.0]. *)
Definition is_real (f : float) : bool :=
  match classify f with
  | NaN | NZero => false
  | _ => true
  end.

(** A stored [REAL]. *)
Record real := mk_real {
  real_val : float;
  real_ok : is_real real_val = true
}.

(** What is read back of a float that was stored: [-0.0] loses its
    sign. *)
Definition read_back (f : float) : float :=
  match classify f with
  | NZero => 0%float
  | _ => f
  end.

(** Binding a Python float as a parameter: NaN goes in as [NULL]
    ([None]). *)
Definition bind_real (f : float) : option real :=
  (if is_real (read_back f) as b return is_real (read_back f) = b -> option real
   then fun H => Some (mk_real (read_back f) H)
   else fun _ => None) eq_refl.

(** *** The shapes of [schemas.py] and [models.py] *)

(** [schemas.BookCreate]. *)
Module BookCreate.
Record t := mk {
  title : string;
  author : string;
  year : Z;
  price : float;
  in_stock : bool;
  description : option string
}.
End BookCreate.

(** [schemas.BookUpdate]: every field is [Optional] with default [None],
    and pydantic records which fields the client set.  The outer option
    is that record ([None]: unset, dropped by [exclude_unset]); the inner
    one is the value, where [None] is an explicit null. *)
Module BookUpdate.
Record t := mk {
  title : option (option string);
  author : option (option string);
  year : option (option Z);
  price : option (option float);
  in_stock : option (option bool);
  description : option (option string)
}.

(** The payload with no field set. *)
Definition empty : t := mk None None None None None None.

(** The payload that sets [price] and nothing else. *)
Definition only_price (p : float) : t :=
  mk None None None (Some (Some p)) None None.
End BookUpdate.

(** [models.Book] as a Python object.  [id] is [Optional[int]].  The
    attributes that [BookUpdate] can carry are nullable here although
    [BookBase] annotates them [str], [int], [float] and [bool]: [setattr]
    in [update_book] stores what the payload holds, null included, and a
    table model does not validate on assignment. *)
Module Book.
Record t := mk {
  id : option Z;
  title : option string;
  author : option string;
  year : option Z;
  price : option float;
  in_stock : option bool;
  description : option string;
  created_at : datetime;
  updated_at : datetime
}.

Definition set_title v (b : t) : t :=
  mk (id b) v (author b) (year b) (price b) (in_stock b) (description b)
     (created_at b) (updated_at b).
Definition set_author v (b : t) : t :=
  mk (id b) (title b) v (year b) (price b) (in_stock b) (description b)
     (created_at b) (updated_at b).
Definition set_year v (b : t) : t :=
  mk (id b) (title b) (author b) v (price b) (in_stock b) (description b)
     (created_at b) (updated_at b).
Definition set_price v (b : t) : t :=
  mk (id b) (title b) (author b) (year b) v (in_stock b) (description b)
     (created_at b) (updated_at b).
Definition set_in_stock v (b : t) : t :=
  mk (id b) (title b) (author b) (year b) (price b) v (description b)
     (created_at b) (updated_at b).
Definition set_description v (b : t) : t :=
  mk (id b) (title b) (author b) (year b) (price b) (in_stock b) v
     (created_at b) (updated_at b).
Definition set_updated_at v (b : t) : t :=
  mk (id b) (title b) (author b) (year b) (price b) (in_stock b)
     (description b) (created_at b) v.
End Book.

(** A row of the [book] table: the columns of [models.Book] with their
    constraints ([key] the primary key, [description] the one nullable
    column), each holding what SQLite can hold. *)
Module Row.
Record t := mk {
  key : rowid;
  title : string;
  author : string;
  year : integer;
  price : real;
  in_stock : bool;
  description : option string;
  created_at : datetime;
  updated_at : datetime
}.

(** The value of the [id] column. *)
Definition id (r : t) : Z := key_val (key r).
End Row.

(** Loading a row into an object. *)
Definition of_row (r : Row.t) : Book.t :=
  Book.mk (Some (Row.id r)) (Some (Row.title r)) (Some (Row.author r))
          (Some (int_val (Row.year r))) (Some (real_val (Row.price r)))
          (Some (Row.in_stock r))
          (Row.description r) (Row.created_at r) (Row.updated_at r).

(** The faults the driver, the engine and the session raise, and the
    mark of a statement the model does not cover. *)
Inductive Fault :=
| OverflowError
| IntegrityError
| Unmodelled
| StaleDataError
| InvalidRequestError.

Inductive Outcome (A : Type) :=
| Returned (a : A)
| Raised (e : Fault).
Arguments Returned {A} a.
Arguments Raised {A} e.

(** The [year] parameter of a statement: [NULL], an [INTEGER], or too
    large to bind ([None]). *)
Definition bind_year (v : option Z) : option (option integer) :=
  match v with
  | None => Some None
  | Some z => option_map Some (bind_int z)
  end.

(** Writing an object under key [k].  The parameters are bound first
    (there [year] may overflow); then the statement runs and the
    [NOT NULL] columns refuse a null, a NaN [price] included. *)
Definition to_row (k : rowid) (b : Book.t) : Outcome Row.t :=
  match bind_year (Book.year b) with
  | None => Raised OverflowError
  | Some year =>
      match Book.title b, Book.author b, year,
            Book.price b ≫= bind_real, Book.in_stock b with
      | Some t, Some a, Some y, Some p, Some s =>
          Returned (Row.mk k t a y p s (Book.description b)
                           (Book.created_at b) (Book.updated_at b))
      | _, _, _, _, _ => Raised IntegrityError
      end
  end.
(** ** The engine, the clock and the session *)

(** What outlives a request: the table in storage order, and the clock. *)
Record World := mkWorld {
  table : list Row.t;
  clock : nat -> datetime;
  ticks : nat
}.

(** The states of an object with respect to the session. *)
Inductive ObjState := Transient | Pending | Persistent | Deleted | Detached.

Record Obj := mkObj {
  attrs : Book.t;
  state : ObjState
}.

(** A Python reference to a [Book] object: its index among the objects of
    the unit of work. *)
Definition ref := nat.

Record Session := mkSession {
  world : World;
  objects : list Obj
}.

(** A computation in a session either returns or raises, and leaves the
    session as it was at that point. *)
Definition SessionM (A : Type) : Type := Session -> Outcome A * Session.

#[global] Instance SessionM_ret : MRet SessionM :=
  fun A a s => (Returned a, s).

#[global] Instance SessionM_bind : MBind SessionM :=
  fun A B k m s =>
    match m s with
    | (Returned a, s') => k a s'
    | (Raised e, s') => (Raised e, s')
    end.

(** [for x in l: body(x)]. *)
Fixpoint for_each {A} (l : list A) (body : A -> SessionM unit)
  : SessionM unit :=
  match l with
  | [] => mret tt
  | x :: l' => body x ;; for_each l' body
  end.

(** [[f(x) for x in l]], left to right. *)
Fixpoint for_all {A B} (l : list A) (f : A -> SessionM B)
  : SessionM (list B) :=
  match l with
  | [] => mret []
  | x :: l' => y ← f x; ys ← for_all l' f; mret (y :: ys)
  end.

(** [datetime.utcnow()]: the next reading of the clock. *)
Definition utcnow : SessionM datetime := fun s =>
  let w := world s in
  (Returned (clock w (ticks w)),
   mkSession (mkWorld (table w) (clock w) (S (ticks w))) (objects s)).

(** A new Python object, not yet known to the session. *)
Definition new_object (b : Book.t) (st : ObjState) : SessionM ref := fun s =>
  (Returned (length (objects s)),
   mkSession (world s) (objects s ++ [mkObj b st])).

(** Reading the attributes behind a reference. *)
Definition read (r : ref) : SessionM Book.t := fun s =>
  match objects s !! r with
  | Some o => (Returned (attrs o), s)
  | None => (Raised InvalidRequestError, s)
  end.

Definition update_object (r : ref) (f : Obj -> Obj) : SessionM unit := fun s =>
  (Returned tt, mkSession (world s) (alter f r (objects s))).

(** ** [models.py] and [schemas.py]: construction and partial update *)

(** [Book.from_orm(book)]: the attributes of the payload, no [id], and the
    two timestamps from their default factories.  [created_at] and
    [updated_at] each declare [default_factory=datetime.utcnow], so each
    default is a clock reading of its own, taken in field order. *)
Definition from_orm (book : BookCreate.t) : SessionM ref :=
  created ← utcnow;
  updated ← utcnow;
  new_object
    (Book.mk None
             (Some (BookCreate.title book)) (Some (BookCreate.author book))
             (Some (BookCreate.year book)) (Some (BookCreate.price book))
             (Some (BookCreate.in_stock book)) (BookCreate.description book)
             created updated)
    Transient.

(** [Book.update_timestamp]. *)
Definition update_timestamp (self : ref) : SessionM unit :=
  now ← utcnow;
  update_object self
    (fun o => mkObj (Book.set_updated_at now (attrs o)) (state o)).

(** One [(key, value)] item of [book_data.dict(...)]. *)
Inductive item :=
| Title (v : option string)
| Author (v : option string)
| Year (v : option Z)
| Price (v : option float)
| InStock (v : option bool)
| Description (v : option string).

Definition item_of {A} (key : A -> item) (field : option A) : list item :=
  match field with
  | Some v => [key v]
  | None => []
  end.

(** [book_data.dict(exclude_unset=True).items()]: the fields the client
    set, in declaration order, each with its value. *)
Definition dict_exclude_unset (book_data : BookUpdate.t) : list item :=
  item_of Title (BookUpdate.title book_data)
  ++ item_of Author (BookUpdate.author book_data)
  ++ item_of Year (BookUpdate.year book_data)
  ++ item_of Price (BookUpdate.price book_data)
  ++ item_of InStock (BookUpdate.in_stock book_data)
  ++ item_of Description (BookUpdate.description book_data).

(** The attribute assignment behind [setattr(db_book, key, value)]. *)
Definition assign (kv : item) (b : Book.t) : Book.t :=
  match kv with
  | Title v => Book.set_title v b
  | Author v => Book.set_author v b
  | Year v => Book.set_year v b
  | Price v => Book.set_price v b
  | InStock v => Book.set_in_stock v b
  | Description v => Book.set_description v b
  end.

Definition setattr (db_book : ref) (kv : item) : SessionM unit :=
  update_object db_book (fun o => mkObj (assign kv (attrs o)) (state o)).

(** ** The table *)

(** [SELECT ... WHERE id = pk]. *)
Definition find_row (pk : Z) (tbl : list Row.t) : option Row.t :=
  find (fun r => Row.id r =? pk) tbl.

(** [UPDATE ... WHERE id = pk]. *)
Definition replace_row (pk : Z) (row : Row.t) (tbl : list Row.t)
  : list Row.t :=
  map (fun r => if Row.id r =? pk then row else r) tbl.

(** [DELETE ... WHERE id = pk]. *)
Definition delete_row (pk : Z) (tbl : list Row.t) : list Row.t :=
  List.filter (fun r => negb (Row.id r =? pk)) tbl.

(** The key SQLite gives a row inserted without one. *)
Definition next_id (tbl : list Row.t) : Z :=
  match map Row.id tbl with
  | [] => 1
  | i :: ids => 1 + fold_left Z.max ids i
  end.

(** [OFFSET n] and [LIMIT n]. *)
Definition sql_offset (n : Z) (tbl : list Row.t) : list Row.t :=
  skipn (Z.to_nat n) tbl.

Definition sql_limit (n : Z) (tbl : list Row.t) : list Row.t :=
  if n <? 0 then tbl else firstn (Z.to_nat n) tbl.

(** [select(Book).offset(offset).limit(limit)], run on the table: the
    offset and the limit are bound as parameters. *)
Definition select_offset_limit (offset limit : Z) (tbl : list Row.t)
  : Outcome (list Row.t) :=
  if in_int64 offset && in_int64 limit
  then Returned (sql_limit limit (sql_offset offset tbl))
  else Raised OverflowError.

(** ** The session *)

(** The identity map: the object already loaded for key [pk], if any;
    [n] is the reference of the head of [objs]. *)
Fixpoint identity_lookup (pk : Z) (objs : list Obj) (n : ref) : option ref :=
  match objs with
  | [] => None
  | o :: objs' =>
      match state o, Book.id (attrs o) with
      | Persistent, Some i =>
          if i =? pk then Some n else identity_lookup pk objs' (S n)
      | _, _ => identity_lookup pk objs' (S n)
      end
  end.

(** The object for a row the engine returned: the one the session already
    holds for that key, or a new persistent one. *)
Definition load (row : Row.t) : SessionM ref := fun s =>
  match identity_lookup (Row.id row) (objects s) 0%nat with
  | Some r => (Returned r, s)
  | None => new_object (of_row row) Persistent s
  end.

(** [session.get(Book, pk)]: the identity map first, then a [SELECT]
    with [pk] bound as its parameter. *)
Definition session_get (pk : Z) : SessionM (option ref) := fun s =>
  match identity_lookup pk (objects s) 0%nat with
  | Some r => (Returned (Some r), s)
  | None =>
      if in_int64 pk then
        match find_row pk (table (world s)) with
        | Some row => (r ← load row; mret (Some r)) s
        | None => (Returned None, s)
        end
      else (Raised OverflowError, s)
  end.

(** [session.exec(statement).all()]. *)
Definition session_exec_all (statement : list Row.t -> Outcome (list Row.t))
  : SessionM (list ref) := fun s =>
  match statement (table (world s)) with
  | Returned rows => for_all rows load s
  | Raised e => (Raised e, s)
  end.

(** [session.add(obj)]: a transient object becomes pending; an object the
    session already holds stays as it is. *)
Definition session_add (obj : ref) : SessionM unit :=
  update_object obj
    (fun o => match state o with
              | Transient => mkObj (attrs o) Pending
              | _ => o
              end).

(** [session.delete(obj)]. *)
Definition session_delete (obj : ref) : SessionM unit := fun s =>
  match objects s !! obj with
  | Some (mkObj b Persistent) =>
      update_object obj (fun _ => mkObj b Deleted) s
  | _ => (Raised InvalidRequestError, s)
  end.

(** The key of a new row: one more than the largest in use. *)
Definition new_key (id : option Z) (tbl : list Row.t) : Outcome rowid :=
  match id with
  | Some _ => Raised Unmodelled
  | None =>
      match bind_key (next_id tbl) with
      | Some k => Returned k
      | None => Raised Unmodelled
      end
  end.

(** What the flush does for one object: [INSERT] a pending one, [UPDATE]
    a persistent one, [DELETE] a deleted one.  In each statement the
    parameters are bound before anything else happens. *)
Definition flush_object (o : Obj) (tbl : list Row.t)
  : Outcome (Obj * list Row.t) :=
  match state o with
  | Pending =>
      match bind_year (Book.year (attrs o)) with
      | None => Raised OverflowError
      | Some _ =>
          match new_key (Book.id (attrs o)) tbl with
          | Returned k =>
              match to_row k (attrs o) with
              | Returned row =>
                  Returned (mkObj (of_row row) Persistent, tbl ++ [row])
              | Raised e => Raised e
              end
          | Raised e => Raised e
          end
      end
  | Persistent =>
      match Book.id (attrs o) with
      | Some pk =>
          if in_int64 pk then
            match bind_year (Book.year (attrs o)) with
            | None => Raised OverflowError
            | Some _ =>
                match find_row pk tbl with
                | Some r =>
                    match to_row (Row.key r) (attrs o) with
                    | Returned row =>
                        Returned (mkObj (of_row row) Persistent,
                                  replace_row pk row tbl)
                    | Raised e => Raised e
                    end
                | None => Raised StaleDataError
                end
            end
          else Raised OverflowError
      | None => Raised InvalidRequestError
      end
  | Deleted =>
      match Book.id (attrs o) with
      | Some pk =>
          if in_int64 pk
          then Returned (mkObj (attrs o) Detached, delete_row pk tbl)
          else Raised OverflowError
      | None => Raised InvalidRequestError
      end
  | Transient | Detached => Returned (o, tbl)
  end.

Fixpoint flush (objs : list Obj) (tbl : list Row.t)
  : Outcome (list Obj * list Row.t) :=
  match objs with
  | [] => Returned ([], tbl)
  | o :: objs' =>
      match flush_object o tbl with
      | Returned (o', tbl') =>
          match flush objs' tbl' with
          | Returned (objs'', tbl'') => Returned (o' :: objs'', tbl'')
          | Raised e => Raised e
          end
      | Raised e => Raised e
      end
  end.

(** [session.commit()]: flush, then make the result the stored table.  A
    fault rolls the transaction back: the table stays as it was. *)
Definition session_commit : SessionM unit := fun s =>
  let w := world s in
  match flush (objects s) (table w) with
  | Returned (objs, tbl) =>
      (Returned tt, mkSession (mkWorld tbl (clock w) (ticks w)) objs)
  | Raised e => (Raised e, s)
  end.

(** [session.refresh(obj)]: reload the attributes from the row, found
    by a [SELECT] with the key of the object as its parameter. *)
Definition session_refresh (obj : ref) : SessionM unit := fun s =>
  match objects s !! obj with
  | Some (mkObj b Persistent) =>
      match Book.id b with
      | Some pk =>
          if in_int64 pk then
            match find_row pk (table (world s)) with
            | Some row =>
                update_object obj (fun _ => mkObj (of_row row) Persistent) s
            | None => (Raised InvalidRequestError, s)
            end
          else (Raised OverflowError, s)
      | None => (Raised InvalidRequestError, s)
      end
  | _ => (Raised InvalidRequestError, s)
  end.

(** [database.get_session]: [with Session(engine) as session: yield
    session].  The unit of work [f] runs in a session of its own; on
    exit, normal or not, the session is closed and what it committed
    stays. *)
Definition get_session {A} (w : World) (f : SessionM A) : Outcome A * World :=
  let (out, s) := f (mkSession w []) in (out, world s).

(** ** [crud.py] *)

(** Create a new Book in the database. *)
Definition create_book (book : BookCreate.t) : SessionM ref :=
  db_book ← from_orm book;
  session_add db_book ;;
  session_commit ;;
  session_refresh db_book ;;
  mret db_book.

(** Return a single Book by primary key, or None if not found. *)
Definition get_book (book_id : Z) : SessionM (option ref) :=
  session_get book_id.

(** Return a page of books. *)
Definition get_books (offset limit : Z) : SessionM (list ref) :=
  let statement := select_offset_limit offset limit in
  session_exec_all statement.

(** Apply partial update to a Book and return it, or None if not found. *)
Definition update_book (book_id : Z) (book_data : BookUpdate.t)
  : SessionM (option ref) :=
  db_book ← session_get book_id;
  match db_book with
  | None => mret None
  | Some db_book =>
      for_each (dict_exclude_unset book_data) (setattr db_book) ;;
      update_timestamp db_book ;;
      session_add db_book ;;
      session_commit ;;
      session_refresh db_book ;;
      mret (Some db_book)
  end.

(** Delete a Book. Returns True on success, False if not found. *)
Definition delete_book (book_id : Z) : SessionM bool :=
  db_book ← session_get book_id;
  match db_book with
  | None => mret false
  | Some db_book =>
      session_delete db_book ;;
      session_commit ;;
      mret true
  end.

(** ** What the caller sees

    The caller of [crud.py] gets references; these read the objects
    behind them before the session closes. *)
Definition read_one (f : SessionM ref) : SessionM Book.t :=
  r ← f; read r.

Definition read_optional (f : SessionM (option ref))
  : SessionM (option Book.t) :=
  r ← f;
  match r with
  | Some r => b ← read r; mret (Some b)
  | None => mret None
  end.

Definition read_all (f : SessionM (list ref)) : SessionM (list Book.t) :=
  rs ← f; for_all rs read.

(** One request each, in a session of its own. *)
Definition Create (w : World) (book : BookCreate.t) : Outcome Book.t * World :=
  get_session w (read_one (create_book book)).

Definition GetOne (w : World) (book_id : Z) : Outcome (option Book.t) * World :=
  get_session w (read_optional (get_book book_id)).

Definition GetPage (w : World) (offset limit : Z)
  : Outcome (list Book.t) * World :=
  get_session w (read_all (get_books offset limit)).

Definition Update (w : World) (book_id : Z) (book_data : BookUpdate.t)
  : Outcome (option Book.t) * World :=
  get_session w (read_optional (update_book book_id book_data)).

Definition Delete (w : World) (book_id : Z) : Outcome bool * World :=
  get_session w (delete_book book_id).

(** ** Histories

    The writes of the layer, as requests that follow one another. *)
Inductive Op :=
| OpCreate (book : BookCreate.t)
| OpUpdate (book_id : Z) (book_data : BookUpdate.t)
| OpDelete (book_id : Z).

Definition step (w : World) (op : Op) : World :=
  match op with
  | OpCreate book => snd (Create w book)
  | OpUpdate book_id book_data => snd (Update w book_id book_data)
  | OpDelete book_id => snd (Delete w book_id)
  end.

Definition run (ops : list Op) (w : World) : World := fold_left step ops w.

(** The store after [create_db_and_tables] on a new database. *)
Definition empty_store (c : nat -> datetime) : World := mkWorld [] c 0.

(** A clock that never goes back, and one that advances between any two
    readings. *)
Definition nondecreasing (c : nat -> datetime) : Prop :=
  forall m n : nat, (m <= n)%nat -> c m <= c n.

Definition increasing (c : nat -> datetime) : Prop :=
  forall m n : nat, (m < n)%nat -> c m < c n.

(** The keys of the table, in storage order. *)
Definition ids (w : World) : list Z := map Row.id (table w).

(** ** What the requests compute

    Closed forms used by the lemmas below. *)

(** The row [create_book] inserts, or the fault of its commit. *)
Definition new_row (w : World) (book : BookCreate.t) : Outcome Row.t :=
  match bind_int (BookCreate.year book) with
  | None => Raised OverflowError
  | Some y =>
      match bind_key (next_id (table w)) with
      | None => Raised Unmodelled
      | Some k =>
          match bind_real (BookCreate.price book) with
          | None => Raised IntegrityError
          | Some p =>
              Returned
                (Row.mk k (BookCreate.title book) (BookCreate.author book)
                        y p (BookCreate.in_stock book)
                        (BookCreate.description book)
                        (clock w (ticks w)) (clock w (S (ticks w))))
          end
      end
  end.

(** The object [update_book] hands to the flush: the loaded row with the
    items of the payload assigned in order and the timestamp refreshed. *)
Definition updated (r : Row.t) (book_data : BookUpdate.t) (now : datetime)
  : Book.t :=
  Book.set_updated_at now
    (fold_left (fun b kv => assign kv b) (dict_exclude_unset book_data)
               (of_row r)).

(** The object the session holds for a row it loaded. *)
Definition persistent (r : Row.t) : Obj := mkObj (of_row r) Persistent.

(** The payload sets a [NOT NULL] column to null. *)
Definition is_null {A} (field : option (option A)) : bool :=
  match field with
  | Some None => true
  | _ => false
  end.

Definition nulls_required (book_data : BookUpdate.t) : bool :=
  is_null (BookUpdate.title book_data)
  || is_null (BookUpdate.author book_data)
  || is_null (BookUpdate.year book_data)
  || is_null (BookUpdate.price book_data)
  || is_null (BookUpdate.in_stock book_data).

(** Every stored timestamp is a reading the clock already gave, and
    [created_at] was read no later than [updated_at]. *)
Definition stamped (w : World) : Prop :=
  forall row, In row (table w) ->
    exists j k : nat,
      (j <= k)%nat /\ (k < ticks w)%nat /\
      Row.created_at row = clock w j /\ Row.updated_at row = clock w k.

(** ** [schemas.py]: the response model and the constructor defaults *)

(** [schemas.BookRead]: every field but [description] is required. *)
Module BookRead.
Record t := mk {
  id : Z;
  title : string;
  author : string;
  year : Z;
  price : float;
  in_stock : bool;
  description : option string;
  created_at : datetime;
  updated_at : datetime
}.
End BookRead.

(** Validating an object against [BookRead]: the attributes are read off
    the object by name, and a required field refuses [None]. *)
Definition BookRead_from_orm (b : Book.t) : option BookRead.t :=
  match Book.id b, Book.title b, Book.author b, Book.year b, Book.price b,
        Book.in_stock b with
  | Some i, Some t, Some a, Some y, Some p, Some s =>
      Some (BookRead.mk i t a y p s (Book.description b)
                        (Book.created_at b) (Book.updated_at b))
  | _, _, _, _, _, _ => None
  end.


(** ** More on histories *)

(** The number of stored records. *)
Definition count (w : World) : nat := length (table w).

(** Every stored [created_at] was read strictly before the stored
    [updated_at], and both before now. *)
Definition stamped_apart (w : World) : Prop :=
  forall row, In row (table w) ->
    exists j k : nat,
      (j < k)%nat /\ (k < ticks w)%nat /\
      Row.created_at row = clock w j /\ Row.updated_at row = clock w k.

(** A payload the table can take: no required field set to null, a
    [year] that fits in 64 bits, a [price] that is a number. *)
Definition year_fits (field : option (option Z)) : bool :=
  match field with
  | Some (Some y) => in_int64 y
  | _ => true
  end.

Definition price_is_number (field : option (option float)) : bool :=
  match field with
  | Some (Some p) => negb (isnan p)
  | _ => true
  end.

Definition storable (book_data : BookUpdate.t) : bool :=
  negb (nulls_required book_data)
  && year_fits (BookUpdate.year book_data)
  && price_is_number (BookUpdate.price book_data).



(** A clock that stands still, and one that runs backwards. *)
Definition stopped_clock : nat -> datetime := fun _ => 0.

Definition backward_clock : nat -> datetime := fun n => - Z.of_nat n.

(** What a stored record reads as after an update that the table takes. *)
Definition merged (b : Book.t) (book_data : BookUpdate.t) (now : datetime)
  : Book.t :=
  Book.mk (Book.id b)
          (default (Book.title b) (BookUpdate.title book_data))
          (default (Book.author b) (BookUpdate.author book_data))
          (default (Book.year b) (BookUpdate.year book_data))
          (match BookUpdate.price book_data with
           | Some (Some p) => Some (read_back p)
           | _ => Book.price b
           end)
          (default (Book.in_stock b) (BookUpdate.in_stock book_data))
          (default (Book.description b) (BookUpdate.description book_data))
          (Book.created_at b) now.

(** The value a request returned, if it returned. *)
Definition fst_returned {A} (r : Outcome A * World) : option A :=
  match fst r with
  | Returned a => Some a
  | Raised _ => None
  end.

(** ** Examples *)

Definition dune : BookCreate.t :=
  BookCreate.mk "Dune" "Herbert" 1965 12.5%float true None.

(** An empty store whose clock reads 0, 1, 2, ... *)
Definition world0 : World := empty_store Z.of_nat.

(** The same store after Dune was created. *)
Definition world1 : World := snd (Create world0 dune).

(** Dune as [create_book] returns it in [world0]. *)
Definition dune1 : Book.t :=
  Book.mk (Some 1) (Some "Dune"%string) (Some "Herbert"%string)
          (Some 1965) (Some 12.5%float) (Some true) None 0 1.

Example create_dune :
  fst (Create world0 dune) = Returned dune1 /\
  ids world1 = [1] /\ ticks world1 = 2%nat.
Proof. repeat split. Qed.

Example page_before : GetPage world0 0 10 = (Returned [], world0).
Proof. reflexivity. Qed.

Example page_after : GetPage world1 0 10 = (Returned [dune1], world1).
Proof. reflexivity. Qed.

Example update_price :
  fst (Update world1 1 (BookUpdate.only_price 9.5%float)) =
  Returned (Some (Book.set_updated_at 2 (Book.set_price (Some 9.5%float)
                                                        dune1))).
Proof. reflexivity. Qed.

Example delete_dune :
  fst (Delete world1 1) = Returned true /\
  fst (GetOne (snd (Delete world1 1)) 1) = Returned None.
Proof. split; reflexivity. Qed.

(** Within one session, the same key gives the same object. *)
Example get_twice :
  fst ((r1 ← session_get 1; r2 ← session_get 1; mret (r1, r2))
         (mkSession world1 [])) =
  Returned (Some 0%nat, Some 0%nat).
Proof. reflexivity. Qed.

(** What the driver and the engine do to the values at the edges. *)
Example create_year_too_large :
  fst (Create world0 (BookCreate.mk "Dune" "Herbert" (2 ^ 63) 12.5%float
                                    true None)) = Raised OverflowError.
Proof. reflexivity. Qed.

Example create_price_nan :
  fst (Create world0 (BookCreate.mk "Dune" "Herbert" 1965 nan true None))
  = Raised IntegrityError.
Proof. reflexivity. Qed.

Example create_price_negative_zero :
  Book.price <$> fst_returned (Create world0
     (BookCreate.mk "Dune" "Herbert" 1965 (-0)%float true None))
  = Some (Some 0%float).
Proof. reflexivity. Qed.

Example get_id_too_large : fst (GetOne world0 (2 ^ 63)) = Raised OverflowError.
Proof. reflexivity. Qed.

Example page_limit_too_large :
  fst (GetPage world0 0 (2 ^ 63)) = Raised OverflowError.
Proof. reflexivity. Qed.
(** * Proofs *)

(** The table operations stay folded while a session is computed. *)
#[global] Arguments find_row : simpl never.
#[global] Arguments next_id : simpl never.
#[global] Arguments replace_row : simpl never.
#[global] Arguments delete_row : simpl never.
#[global] Arguments select_offset_limit : simpl never.

Ltac session_unfold :=
  unfold Create, GetOne, GetPage, Update, Delete, get_session, read_one,
    read_optional, read_all, create_book, get_book, get_books, update_book,
    delete_book, from_orm, update_timestamp, setattr, session_get, load,
    session_add, session_delete, session_commit, session_refresh,
    session_exec_all, utcnow, new_object, read, update_object,
    mbind, SessionM_bind, mret, SessionM_ret.

(** ** Stored values *)

Lemma integer_eq (a b : integer) : int_val a = int_val b -> a = b.
Proof.
  destruct a as [x Hx], b as [y Hy]. cbn. intros ->.
  f_equal. apply UIP_dec, bool_dec.
Qed.

Lemma rowid_eq (a b : rowid) : key_val a = key_val b -> a = b.
Proof.
  destruct a as [x Hx], b as [y Hy]. cbn. intros ->.
  f_equal. apply UIP_dec, bool_dec.
Qed.

Lemma bind_key_Some z k : bind_key z = Some k -> key_val k = z.
Proof.
  unfold bind_key. generalize (eq_refl (in_rowid z)).
  generalize (in_rowid z) at 2 3. intros [] H; [|discriminate].
  now intros [= <-].
Qed.



Lemma in_rowid_int64 z : in_rowid z = true -> in_int64 z = true.
Proof. unfold in_rowid, in_int64. lia. Qed.

Lemma real_eq (a b : real) : real_val a = real_val b -> a = b.
Proof.
  destruct a as [x Hx], b as [y Hy]. cbn. intros ->.
  f_equal. apply UIP_dec, bool_dec.
Qed.

Lemma in_int64_spec z : in_int64 z = true <-> int64 z.
Proof. unfold in_int64, int64. lia. Qed.

Lemma bind_int_Some z k : bind_int z = Some k -> int_val k = z.
Proof.
  unfold bind_int. generalize (eq_refl (in_int64 z)).
  generalize (in_int64 z) at 2 3. intros [] H; [|discriminate].
  now intros [= <-].
Qed.

Lemma bind_int_None z : bind_int z = None <-> in_int64 z = false.
Proof.
  unfold bind_int. generalize (eq_refl (in_int64 z)).
  generalize (in_int64 z) at 2 3.
  intros [] H; split; intros E; try discriminate; congruence.
Qed.

Lemma bind_int_in z :
  in_int64 z = true -> exists k, bind_int z = Some k /\ int_val k = z.
Proof.
  intros H. destruct (bind_int z) as [k|] eqn:E.
  - exists k. split; [reflexivity|]. now apply bind_int_Some.
  - apply bind_int_None in E. congruence.
Qed.

Lemma bind_int_val k : bind_int (int_val k) = Some k.
Proof.
  destruct (bind_int_in _ (int_ok k)) as (k' & -> & E).
  f_equal. now apply integer_eq.
Qed.

Lemma bind_real_Some f r : bind_real f = Some r -> real_val r = read_back f.
Proof.
  unfold bind_real. generalize (eq_refl (is_real (read_back f))).
  generalize (is_real (read_back f)) at 2 3. intros [] H; [|discriminate].
  now intros [= <-].
Qed.

Lemma is_real_read_back f : is_real (read_back f) = negb (isnan f).
Proof.
  unfold is_real, read_back, isnan.
  destruct (classify f) eqn:E; try (rewrite E; reflexivity); reflexivity.
Qed.

Lemma bind_real_None f : bind_real f = None <-> isnan f = true.
Proof.
  unfold bind_real. generalize (eq_refl (is_real (read_back f))).
  generalize (is_real (read_back f)) at 2 3.
  intros [] H; pose proof H as H'; rewrite is_real_read_back in H';
    destruct (isnan f); split; intros E; try discriminate; reflexivity.
Qed.

Lemma bind_real_in f :
  isnan f = false ->
  exists r, bind_real f = Some r /\ real_val r = read_back f.
Proof.
  intros H. destruct (bind_real f) as [r|] eqn:E.
  - exists r. split; [reflexivity|]. now apply bind_real_Some.
  - apply bind_real_None in E. congruence.
Qed.

Lemma read_back_real r : read_back (real_val r) = real_val r.
Proof.
  pose proof (real_ok r) as H. unfold is_real in H. unfold read_back.
  now destruct (classify (real_val r)).
Qed.

Lemma isnan_real r : isnan (real_val r) = false.
Proof.
  pose proof (real_ok r) as H. unfold is_real in H. unfold isnan.
  now destruct (classify (real_val r)).
Qed.

Lemma bind_real_val r : bind_real (real_val r) = Some r.
Proof.
  destruct (bind_real_in _ (isnan_real r)) as (r' & -> & E).
  f_equal. apply real_eq. now rewrite E, read_back_real.
Qed.

Lemma Row_id_rowid r : in_rowid (Row.id r) = true.
Proof. apply key_ok. Qed.

Lemma Row_id_int64 r : in_int64 (Row.id r) = true.
Proof. apply in_rowid_int64, Row_id_rowid. Qed.

(** A row written back as it was loaded is the same row. *)
Lemma to_row_of_row r : to_row (Row.key r) (of_row r) = Returned r.
Proof.
  unfold to_row, of_row. cbn.
  rewrite bind_int_val. cbn. rewrite bind_real_val. now destruct r.
Qed.

(** ** The table *)

Lemma find_row_id pk tbl r : find_row pk tbl = Some r -> Row.id r = pk.
Proof.
  unfold find_row. intros H. apply find_some in H as [_ H].
  now apply Z.eqb_eq.
Qed.

Lemma find_row_In pk tbl r : find_row pk tbl = Some r -> In r tbl.
Proof. unfold find_row. intros H. now apply find_some in H. Qed.

Lemma find_row_None pk tbl :
  find_row pk tbl = None <-> ~ In pk (map Row.id tbl).
Proof.
  unfold find_row. induction tbl as [|r tbl IH]; simpl.
  - tauto.
  - destruct (Z.eqb_spec (Row.id r) pk); [split; [discriminate | tauto] |].
    rewrite IH. tauto.
Qed.

Lemma fold_max_le ids : forall i j, In j (i :: ids) -> j <= fold_left Z.max ids i.
Proof.
  induction ids as [|k ids IH]; simpl; intros i j H.
  - destruct H as [->|[]]. lia.
  - destruct H as [->|[->|H]].
    + etransitivity; [|apply IH; left; reflexivity]. lia.
    + etransitivity; [|apply IH; left; reflexivity]. lia.
    + apply IH. now right.
Qed.

Lemma next_id_above tbl pk : In pk (map Row.id tbl) -> pk < next_id tbl.
Proof.
  unfold next_id. destruct (map Row.id tbl) as [|i l]; [intros []|].
  intros H. apply fold_max_le in H. lia.
Qed.

Lemma find_row_next_id tbl : find_row (next_id tbl) tbl = None.
Proof.
  apply find_row_None. intros H. apply next_id_above in H. lia.
Qed.

Lemma find_row_app pk tbl row :
  find_row pk (tbl ++ [row]) =
  match find_row pk tbl with
  | Some r => Some r
  | None => if Row.id row =? pk then Some row else None
  end.
Proof.
  unfold find_row. induction tbl as [|r tbl IH]; simpl.
  - reflexivity.
  - destruct (Row.id r =? pk); [reflexivity | exact IH].
Qed.

Lemma find_row_replace pk pk' row tbl :
  Row.id row = pk ->
  find_row pk' (replace_row pk row tbl) =
  if pk' =? pk then option_map (fun _ => row) (find_row pk tbl)
  else find_row pk' tbl.
Proof.
  intros Hrow. unfold find_row, replace_row.
  induction tbl as [|r tbl IH]; simpl.
  - now destruct (pk' =? pk).
  - destruct (Z.eqb_spec (Row.id r) pk) as [E|E]; simpl.
    + rewrite Hrow. destruct (Z.eqb_spec pk' pk) as [->|N].
      * now rewrite Z.eqb_refl.
      * destruct (Z.eqb_spec pk pk'); [congruence|].
        destruct (Z.eqb_spec (Row.id r) pk'); [congruence|]. exact IH.
    + destruct (Z.eqb_spec pk' pk) as [->|N].
      * destruct (Z.eqb_spec (Row.id r) pk); [contradiction|]. exact IH.
      * destruct (Row.id r =? pk'); [reflexivity|exact IH].
Qed.

Lemma find_row_delete pk pk' tbl :
  find_row pk' (delete_row pk tbl) =
  if pk' =? pk then None else find_row pk' tbl.
Proof.
  unfold find_row, delete_row. induction tbl as [|r tbl IH]; simpl.
  - now destruct (pk' =? pk).
  - destruct (Z.eqb_spec (Row.id r) pk) as [E|E]; simpl.
    + rewrite IH. destruct (Z.eqb_spec pk' pk) as [->|N]; [reflexivity|].
      destruct (Z.eqb_spec (Row.id r) pk'); [congruence|reflexivity].
    + destruct (Z.eqb_spec (Row.id r) pk') as [E'|E'].
      * destruct (Z.eqb_spec pk' pk); [congruence|reflexivity].
      * exact IH.
Qed.


(** ** The requests, as functions of the world *)

Lemma to_row_key k b row : to_row k b = Returned row -> Row.key row = k.
Proof.
  unfold to_row. destruct (bind_year (Book.year b)) as [[y|]|];
    try discriminate;
    destruct (Book.title b), (Book.author b), (Book.price b ≫= bind_real),
      (Book.in_stock b); try discriminate; now intros [= <-].
Qed.

Lemma to_row_id k b row : to_row k b = Returned row -> Row.id row = key_val k.
Proof. intros H. unfold Row.id. now rewrite (to_row_key _ _ _ H). Qed.

Lemma to_row_created_at k b row :
  to_row k b = Returned row -> Row.created_at row = Book.created_at b.
Proof.
  unfold to_row. destruct (bind_year (Book.year b)) as [[y|]|];
    try discriminate;
    destruct (Book.title b), (Book.author b), (Book.price b ≫= bind_real),
      (Book.in_stock b); try discriminate; now intros [= <-].
Qed.

Lemma to_row_updated_at k b row :
  to_row k b = Returned row -> Row.updated_at row = Book.updated_at b.
Proof.
  unfold to_row. destruct (bind_year (Book.year b)) as [[y|]|];
    try discriminate;
    destruct (Book.title b), (Book.author b), (Book.price b ≫= bind_real),
      (Book.in_stock b); try discriminate; now intros [= <-].
Qed.

Lemma to_row_overflow k b :
  to_row k b = Raised OverflowError <-> bind_year (Book.year b) = None.
Proof.
  unfold to_row. destruct (bind_year (Book.year b)) as [[y|]|];
    [| |tauto];
    destruct (Book.title b), (Book.author b), (Book.price b ≫= bind_real),
      (Book.in_stock b); split; discriminate.
Qed.

Lemma Create_eq w book :
  Create w book =
  match new_row w book with
  | Returned row =>
      (Returned (of_row row),
       mkWorld (table w ++ [row]) (clock w) (S (S (ticks w))))
  | Raised e => (Raised e, mkWorld (table w) (clock w) (S (S (ticks w))))
  end.
Proof.
  destruct w as [tbl c n]. unfold new_row.
  session_unfold. cbn.
  destruct (bind_int (BookCreate.year book)) as [y|] eqn:Ey; cbn;
    [|reflexivity].
  unfold new_key.
  destruct (bind_key (next_id tbl)) as [k|] eqn:Ek; cbn; [|reflexivity].
  unfold to_row. cbn. rewrite Ey. cbn.
  destruct (bind_real (BookCreate.price book)) as [p|]; cbn; [|reflexivity].
  assert (Hin : in_int64 (next_id tbl) = true).
  { rewrite <- (bind_key_Some _ _ Ek). apply in_rowid_int64, key_ok. }
  unfold Row.id. cbn [Row.key]. rewrite (bind_key_Some _ _ Ek).
  rewrite Hin, find_row_app, find_row_next_id.
  unfold Row.id. cbn [Row.key]. rewrite (bind_key_Some _ _ Ek), Z.eqb_refl.
  reflexivity.
Qed.

Lemma GetOne_eq w book_id :
  GetOne w book_id =
  if in_int64 book_id
  then (Returned (of_row <$> find_row book_id (table w)), w)
  else (Raised OverflowError, w).
Proof.
  destruct w as [tbl c n].
  session_unfold. cbn.
  destruct (in_int64 book_id); [|reflexivity].
  destruct (find_row book_id tbl) as [r|]; reflexivity.
Qed.

Lemma Delete_eq w book_id :
  Delete w book_id =
  if in_int64 book_id then
    match find_row book_id (table w) with
    | Some _ =>
        (Returned true,
         mkWorld (delete_row book_id (table w)) (clock w) (ticks w))
    | None => (Returned false, w)
    end
  else (Raised OverflowError, w).
Proof.
  destruct w as [tbl c n].
  session_unfold. cbn.
  destruct (in_int64 book_id); [|reflexivity].
  destruct (find_row book_id tbl) as [r|] eqn:E; [|reflexivity].
  cbn. rewrite Row_id_int64. cbn.
  now rewrite (find_row_id _ _ _ E).
Qed.

Lemma for_each_setattr items : forall b st w,
  for_each items (setattr 0%nat) (mkSession w [mkObj b st]) =
  (Returned tt,
   mkSession w [mkObj (fold_left (fun b kv => assign kv b) items b) st]).
Proof.
  induction items as [|kv items IH]; intros b st w; [reflexivity|].
  cbn [for_each fold_left]. session_unfold. cbn. apply IH.
Qed.

Lemma assign_id kv b : Book.id (assign kv b) = Book.id b.
Proof. now destruct kv. Qed.

Lemma fold_assign_id items : forall b,
  Book.id (fold_left (fun b kv => assign kv b) items b) = Book.id b.
Proof.
  induction items as [|kv items IH]; intros b; [reflexivity|].
  cbn [fold_left]. now rewrite IH, assign_id.
Qed.

Lemma session_get_fresh w pk :
  session_get pk (mkSession w []) =
  if in_int64 pk then
    match find_row pk (table w) with
    | Some row =>
        (Returned (Some 0%nat), mkSession w [mkObj (of_row row) Persistent])
    | None => (Returned None, mkSession w [])
    end
  else (Raised OverflowError, mkSession w []).
Proof.
  session_unfold. cbn. destruct (in_int64 pk); [|reflexivity].
  now destruct (find_row pk (table w)).
Qed.

Lemma updated_eq r book_data now :
  updated r book_data now =
  Book.mk (Some (Row.id r))
          (default (Some (Row.title r)) (BookUpdate.title book_data))
          (default (Some (Row.author r)) (BookUpdate.author book_data))
          (default (Some (int_val (Row.year r))) (BookUpdate.year book_data))
          (default (Some (real_val (Row.price r)))
                   (BookUpdate.price book_data))
          (default (Some (Row.in_stock r)) (BookUpdate.in_stock book_data))
          (default (Row.description r) (BookUpdate.description book_data))
          (Row.created_at r) now.
Proof.
  destruct book_data as [[t|] [a|] [y|] [p|] [s|] [d|]]; reflexivity.
Qed.

Lemma flush_persistent r b tbl :
  Book.id b = Some (Row.id r) ->
  find_row (Row.id r) tbl = Some r ->
  flush [mkObj b Persistent] tbl =
  match to_row (Row.key r) b with
  | Returned row =>
      Returned ([mkObj (of_row row) Persistent],
                replace_row (Row.id r) row tbl)
  | Raised e => Raised e
  end.
Proof.
  intros Hb Hr. cbn [flush]. unfold flush_object. cbn [state attrs].
  rewrite Hb, Row_id_int64.
  destruct (bind_year (Book.year b)) as [y|] eqn:B.
  - rewrite Hr.
    now destruct (to_row (Row.key r) b) as [row|e].
  - apply to_row_overflow with (k := Row.key r) in B. now rewrite B.
Qed.

Lemma Update_eq w book_id book_data :
  Update w book_id book_data =
  if in_int64 book_id then
    match find_row book_id (table w) with
    | None => (Returned None, w)
    | Some r =>
        match to_row (Row.key r)
                     (updated r book_data (clock w (ticks w))) with
        | Returned row =>
            (Returned (Some (of_row row)),
             mkWorld (replace_row book_id row (table w)) (clock w)
                     (S (ticks w)))
        | Raised e =>
            (Raised e, mkWorld (table w) (clock w) (S (ticks w)))
        end
    end
  else (Raised OverflowError, w).
Proof.
  unfold Update, get_session, read_optional, update_book.
  unfold mbind, SessionM_bind.
  rewrite session_get_fresh.
  destruct (in_int64 book_id) eqn:Hin; [|reflexivity].
  destruct (find_row book_id (table w)) as [r|] eqn:E; [|reflexivity].
  rewrite for_each_setattr.
  destruct w as [tbl c n]. cbn [table clock ticks] in *.
  pose proof (find_row_id _ _ _ E) as Hid.
  unfold update_timestamp, session_add, session_commit, utcnow,
    update_object, mbind, SessionM_bind.
  cbn [world objects table clock ticks alter list_alter attrs state].
  fold (updated r book_data (c n)).
  rewrite (flush_persistent r);
    [| unfold updated; cbn [Book.set_updated_at Book.id];
       now rewrite fold_assign_id
     | now rewrite Hid ].
  destruct (to_row (Row.key r) (updated r book_data (c n))) as [row|e] eqn:T;
    [|reflexivity].
  pose proof (to_row_id _ _ _ T) as Hrow. fold (Row.id r) in Hrow.
  unfold session_refresh, update_object, read, mret, SessionM_ret.
  cbn [objects lookup list_lookup world table of_row Book.id].
  rewrite Row_id_int64, Hrow, Hid.
  rewrite (find_row_replace _ _ _ _ (eq_trans Hrow Hid)), Z.eqb_refl, E.
  reflexivity.
Qed.

(** ** Loading a page *)

Lemma identity_lookup_app pk o : forall objs n,
  identity_lookup pk (objs ++ [o]) n =
  match identity_lookup pk objs n with
  | Some r => Some r
  | None => identity_lookup pk [o] (length objs + n)%nat
  end.
Proof.
  induction objs as [|o' objs IH]; intros n; [reflexivity|].
  cbn [identity_lookup app length].
  replace (S (length objs) + n)%nat with (length objs + S n)%nat by lia.
  destruct (state o'), (Book.id (attrs o')) as [i|]; try apply IH.
  destruct (i =? pk); [reflexivity | apply IH].
Qed.

Lemma for_all_load w : forall rows objs,
  List.NoDup (map Row.id rows) ->
  (forall row, In row rows ->
               identity_lookup (Row.id row) objs 0%nat = None) ->
  for_all rows load (mkSession w objs) =
  (Returned (seq (length objs) (length rows)),
   mkSession w (objs ++ map persistent rows)).
Proof.
  induction rows as [|row rows IH]; intros objs Hnd Hnew.
  - cbn. now rewrite app_nil_r.
  - cbn [for_all]. unfold mbind, SessionM_bind.
    unfold load at 1. cbn [objects].
    rewrite (Hnew row (or_introl eq_refl)).
    unfold new_object. cbn [objects world].
    inversion Hnd as [|? ? Hnotin Hnd']; subst.
    rewrite IH; [| exact Hnd' |].
    + unfold mret, SessionM_ret. cbn [map length seq].
      rewrite length_app, Nat.add_1_r, <- app_assoc. reflexivity.
    + intros row' Hin. rewrite identity_lookup_app.
      rewrite (Hnew row' (or_intror Hin)). cbn.
      destruct (Z.eqb_spec (Row.id row) (Row.id row')) as [E|]; [|reflexivity].
      exfalso. apply Hnotin. rewrite E. now apply in_map.
Qed.

Lemma for_all_read w : forall rows objs,
  for_all (seq (length objs) (length rows)) read
          (mkSession w (objs ++ map persistent rows)) =
  (Returned (map of_row rows), mkSession w (objs ++ map persistent rows)).
Proof.
  induction rows as [|row rows IH]; intros objs; [reflexivity|].
  cbn [length seq map for_all]. unfold mbind, SessionM_bind.
  unfold read at 1. cbn [objects].
  rewrite list_lookup_middle by reflexivity. cbn [attrs persistent].
  specialize (IH (objs ++ [persistent row])).
  rewrite length_app, Nat.add_1_r, <- app_assoc in IH. cbn [app] in IH.
  rewrite IH. reflexivity.
Qed.

Lemma page_NoDup offset limit tbl :
  List.NoDup (map Row.id tbl) ->
  List.NoDup (map Row.id (sql_limit limit (sql_offset offset tbl))).
Proof.
  intros H. unfold sql_limit, sql_offset.
  assert (H1 : List.NoDup (map Row.id (skipn (Z.to_nat offset) tbl))).
  { rewrite <- (firstn_skipn (Z.to_nat offset) tbl), map_app in H.
    now apply NoDup_app_remove_l in H. }
  destruct (limit <? 0); [exact H1|].
  rewrite <- (firstn_skipn (Z.to_nat limit) (skipn _ tbl)), map_app in H1.
  now apply NoDup_app_remove_r in H1.
Qed.

Lemma select_eq offset limit tbl :
  select_offset_limit offset limit tbl =
  if in_int64 offset && in_int64 limit
  then Returned (sql_limit limit (sql_offset offset tbl))
  else Raised OverflowError.
Proof. reflexivity. Qed.

Lemma GetPage_eq w offset limit :
  List.NoDup (ids w) ->
  GetPage w offset limit =
  match select_offset_limit offset limit (table w) with
  | Returned rows => (Returned (map of_row rows), w)
  | Raised e => (Raised e, w)
  end.
Proof.
  intros H. unfold GetPage, get_session, read_all, get_books, session_exec_all.
  unfold mbind, SessionM_bind. cbn [world table].
  rewrite select_eq.
  destruct (in_int64 offset && in_int64 limit); [|reflexivity].
  rewrite for_all_load; [| now apply page_NoDup | reflexivity].
  cbn [length]. rewrite (for_all_read w _ []). reflexivity.
Qed.

(** ** Worlds along a history *)

Lemma In_replace_row pk row tbl r' :
  In r' (replace_row pk row tbl) ->
  r' = row /\ In pk (map Row.id tbl) \/ In r' tbl.
Proof.
  unfold replace_row. intros H. apply in_map_iff in H as (r & Hr & Hin).
  destruct (Z.eqb_spec (Row.id r) pk) as [E|E].
  - left. split; [congruence|]. rewrite <- E. now apply in_map.
  - right. congruence.
Qed.

Lemma map_id_replace_row pk row tbl :
  Row.id row = pk ->
  map Row.id (replace_row pk row tbl) = map Row.id tbl.
Proof.
  intros H. unfold replace_row. rewrite map_map. apply map_ext.
  intros r. destruct (Z.eqb_spec (Row.id r) pk); congruence.
Qed.

Lemma map_id_delete_row pk tbl :
  map Row.id (delete_row pk tbl) =
  List.filter (fun k => negb (k =? pk)) (map Row.id tbl).
Proof.
  unfold delete_row. induction tbl as [|r tbl IH]; [reflexivity|].
  cbn. destruct (Row.id r =? pk); cbn; now rewrite IH.
Qed.

Lemma ids_int64 w k : In k (ids w) -> in_int64 k = true.
Proof.
  unfold ids. intros H. apply in_map_iff in H as (r & <- & _).
  apply Row_id_int64.
Qed.

Lemma new_row_id w book row :
  new_row w book = Returned row -> Row.id row = next_id (table w).
Proof.
  unfold new_row. destruct (bind_int (BookCreate.year book)); [|discriminate].
  destruct (bind_key (next_id (table w))) as [k|] eqn:Ek; [|discriminate].
  destruct (bind_real (BookCreate.price book)); [|discriminate].
  intros [= <-]. unfold Row.id. cbn. now apply bind_key_Some.
Qed.

Lemma new_row_stamps w book row :
  new_row w book = Returned row ->
  Row.created_at row = clock w (ticks w) /\
  Row.updated_at row = clock w (S (ticks w)).
Proof.
  unfold new_row. destruct (bind_int (BookCreate.year book)); [|discriminate].
  destruct (bind_key (next_id (table w))); [|discriminate].
  destruct (bind_real (BookCreate.price book)); [|discriminate].
  intros [= <-]. now split.
Qed.

Lemma step_clock w op : clock (step w op) = clock w.
Proof.
  destruct op as [book|book_id book_data|book_id]; cbn [step].
  - rewrite Create_eq. now destruct (new_row w book).
  - rewrite Update_eq. destruct (in_int64 book_id); [|reflexivity].
    destruct (find_row _ _); [|reflexivity].
    now destruct (to_row _ _).
  - rewrite Delete_eq. destruct (in_int64 book_id); [|reflexivity].
    now destruct (find_row _ _).
Qed.

Lemma run_clock ops : forall w, clock (run ops w) = clock w.
Proof.
  induction ops as [|op ops IH]; intros w; [reflexivity|].
  cbn [run fold_left]. fold (run ops (step w op)).
  now rewrite IH, step_clock.
Qed.

Lemma stamped_later w tbl n :
  (ticks w <= n)%nat ->
  (forall row, In row tbl -> In row (table w)) ->
  stamped w -> stamped (mkWorld tbl (clock w) n).
Proof.
  intros Hn Hsub Hw row Hin. cbn in *.
  destruct (Hw row (Hsub row Hin)) as (j & k & Hjk & Hk & Hc & Hu).
  exists j, k. repeat split; [lia | lia | exact Hc | exact Hu].
Qed.

Lemma step_stamped w op : stamped w -> stamped (step w op).
Proof.
  intros Hw. destruct op as [book|book_id book_data|book_id]; cbn [step].
  - rewrite Create_eq. destruct (new_row w book) as [new|e] eqn:N; cbn [snd].
    + intros row Hin. cbn in Hin |- *.
      apply in_app_or in Hin as [Hin|[<-|[]]].
      * destruct (Hw row Hin) as (j & k & Hjk & Hk & Hc & Hu).
        exists j, k. repeat split; [lia | lia | exact Hc | exact Hu].
      * destruct (new_row_stamps _ _ _ N) as [Hc Hu].
        exists (ticks w), (S (ticks w)). repeat split; [lia|lia|easy|easy].
    + apply stamped_later; [lia | auto | exact Hw].
  - rewrite Update_eq. destruct (in_int64 book_id); [|exact Hw].
    destruct (find_row _ _) as [r|] eqn:E; [|exact Hw].
    destruct (to_row _ _) as [row|] eqn:T; cbn [snd].
    + intros r' Hin. cbn in Hin |- *.
      apply In_replace_row in Hin as [[-> _]|Hin].
      * destruct (Hw r (find_row_In _ _ _ E)) as (j & k & Hjk & Hk & Hc & _).
        exists j, (ticks w). rewrite (to_row_created_at _ _ _ T).
        rewrite (to_row_updated_at _ _ _ T), updated_eq. cbn.
        repeat split; [lia | lia | exact Hc].
      * destruct (Hw r' Hin) as (j & k & Hjk & Hk & Hc & Hu).
        exists j, k. repeat split; [lia | lia | exact Hc | exact Hu].
    + apply stamped_later; [lia | auto | exact Hw].
  - rewrite Delete_eq. destruct (in_int64 book_id); [|exact Hw].
    destruct (find_row _ _); [|exact Hw]. cbn [snd].
    apply stamped_later; [lia | | exact Hw].
    intros row Hin. unfold delete_row in Hin.
    now apply List.filter_In in Hin.
Qed.

Lemma run_stamped ops : forall w, stamped w -> stamped (run ops w).
Proof.
  induction ops as [|op ops IH]; intros w Hw; [exact Hw|].
  cbn [run fold_left]. apply IH, step_stamped, Hw.
Qed.

Lemma empty_store_stamped c : stamped (empty_store c).
Proof. intros row []. Qed.

Lemma filter_absent (f : Z -> bool) l :
  (forall k, In k l -> f k = true) -> List.filter f l = l.
Proof.
  intros H. apply forallb_filter_id, forallb_forall. exact H.
Qed.

Lemma step_ids w op :
  match op with
  | OpCreate _ =>
      ids (step w op) = ids w \/
      exists k, ~ In k (ids w) /\ ids (step w op) = ids w ++ [k]
  | OpUpdate _ _ => ids (step w op) = ids w
  | OpDelete book_id =>
      ids (step w op) = List.filter (fun k => negb (k =? book_id)) (ids w)
  end.
Proof.
  unfold ids. destruct op as [book|book_id book_data|book_id]; cbn [step].
  - rewrite Create_eq. destruct (new_row w book) as [row|e] eqn:N; cbn [snd];
      [right|now left].
    exists (next_id (table w)). split.
    + apply find_row_None, find_row_next_id.
    + cbn [table]. rewrite map_app. cbn [map].
      now rewrite (new_row_id _ _ _ N).
  - rewrite Update_eq. destruct (in_int64 book_id); [|reflexivity].
    destruct (find_row _ _) as [r|] eqn:E; [|reflexivity].
    destruct (to_row _ _) as [row|] eqn:T; [|reflexivity]. cbn.
    apply map_id_replace_row. rewrite (to_row_id _ _ _ T).
    exact (find_row_id _ _ _ E).
  - rewrite Delete_eq. destruct (in_int64 book_id) eqn:Hin.
    + destruct (find_row _ _) as [r|] eqn:E; cbn.
      * apply map_id_delete_row.
      * symmetry. apply filter_absent. intros k Hk.
        apply find_row_None in E.
        destruct (Z.eqb_spec k book_id); [congruence|reflexivity].
    + cbn. symmetry. apply filter_absent. intros k Hk.
      destruct (Z.eqb_spec k book_id) as [->|]; [|reflexivity].
      apply (ids_int64 w) in Hk. congruence.
Qed.

Lemma step_NoDup w op : List.NoDup (ids w) -> List.NoDup (ids (step w op)).
Proof.
  intros H. pose proof (step_ids w op) as Hop.
  destruct op as [book|book_id book_data|book_id].
  - destruct Hop as [->|(k & Hk & ->)]; [exact H|]. apply List.NoDup_app.
    + exact H.
    + constructor; [intros [] | constructor].
    + intros a Ha [<-|[]]. contradiction.
  - now rewrite Hop.
  - rewrite Hop. now apply List.NoDup_filter.
Qed.

Lemma run_NoDup ops : forall w,
  List.NoDup (ids w) -> List.NoDup (ids (run ops w)).
Proof.
  induction ops as [|op ops IH]; intros w Hw; [exact Hw|].
  cbn [run fold_left]. apply IH, step_NoDup, Hw.
Qed.

Lemma stamped_ordered w :
  nondecreasing (clock w) -> stamped w ->
  forall row, In row (table w) -> Row.created_at row <= Row.updated_at row.
Proof.
  intros Hc Hw row Hin.
  destruct (Hw row Hin) as (j & k & Hjk & _ & -> & ->). now apply Hc.
Qed.

(** ** Reading a record back *)

Lemma GetOne_stored w book_id b :
  fst (GetOne w book_id) = Returned (Some b) ->
  exists r, find_row book_id (table w) = Some r /\ b = of_row r.
Proof.
  rewrite GetOne_eq. destruct (in_int64 book_id); [|discriminate].
  cbn [fst].
  destruct (find_row book_id (table w)) as [r|]; [|discriminate].
  intros [= <-]. now exists r.
Qed.

Lemma GetOne_found w book_id r :
  find_row book_id (table w) = Some r ->
  GetOne w book_id = (Returned (Some (of_row r)), w).
Proof.
  intros E. rewrite GetOne_eq, E.
  now rewrite <- (find_row_id _ _ _ E), Row_id_int64.
Qed.

Lemma GetOne_after_update w book_id r row n :
  find_row book_id (table w) = Some r ->
  Row.id row = book_id ->
  GetOne (mkWorld (replace_row book_id row (table w)) (clock w) n) book_id =
  (Returned (Some (of_row row)),
   mkWorld (replace_row book_id row (table w)) (clock w) n).
Proof.
  intros E Hid. apply GetOne_found. cbn [table].
  now rewrite (find_row_replace _ _ _ _ Hid), Z.eqb_refl, E.
Qed.

(** ** The partial update, field by field *)

Lemma storable_spec book_data :
  storable book_data = true <->
  nulls_required book_data = false /\
  year_fits (BookUpdate.year book_data) = true /\
  price_is_number (BookUpdate.price book_data) = true.
Proof.
  unfold storable. rewrite !andb_true_iff, negb_true_iff. tauto.
Qed.

Lemma to_row_storable r book_data now :
  storable book_data = true ->
  exists row,
    to_row (Row.key r) (updated r book_data now) = Returned row /\
    of_row row = merged (of_row r) book_data now.
Proof.
  intros H. apply storable_spec in H as (Hn & Hy & Hp).
  rewrite updated_eq. unfold to_row, merged.
  destruct book_data as [t a y p s d].
  cbn [BookUpdate.title BookUpdate.author BookUpdate.year BookUpdate.price
       BookUpdate.in_stock BookUpdate.description] in *.
  cbn [Book.title Book.author Book.year Book.price Book.in_stock
       Book.description Book.created_at Book.updated_at Book.id].
  assert (Ey : exists ky, bind_year (default (Some (int_val (Row.year r))) y)
                          = Some (Some ky) /\
                          Some (int_val ky)
                          = default (Some (int_val (Row.year r))) y).
  { destruct y as [[y|]|]; cbn in *.
    - destruct (bind_int_in y Hy) as (ky & -> & E). exists ky. now rewrite E.
    - destruct t as [[]|], a as [[]|]; discriminate Hn.
    - exists (Row.year r). now rewrite bind_int_val. }
  destruct Ey as (ky & -> & Ey).
  assert (Ep : exists kp, default (Some (real_val (Row.price r))) p
                          ≫= bind_real = Some kp /\
                          Some (real_val kp)
                          = match p with
                            | Some (Some p) => Some (read_back p)
                            | _ => Some (real_val (Row.price r))
                            end).
  { destruct p as [[p|]|]; cbn in *.
    - apply negb_true_iff in Hp.
      destruct (bind_real_in p Hp) as (kp & -> & E). exists kp. now rewrite E.
    - destruct t as [[]|], a as [[]|], y as [[]|]; discriminate Hn.
    - exists (Row.price r). now rewrite bind_real_val. }
  destruct Ep as (kp & -> & Ep).
  destruct t as [[t|]|], a as [[a|]|], s as [[s|]|];
    try (exfalso; clear - Hn; destruct y as [[]|], p as [[]|];
         discriminate Hn);
    (eexists; split; [reflexivity|]);
    unfold of_row; cbn; rewrite Ey, Ep; reflexivity.
Qed.


Lemma Update_storable w book_id r book_data :
  find_row book_id (table w) = Some r ->
  storable book_data = true ->
  exists row,
    Row.id row = book_id /\
    of_row row = merged (of_row r) book_data (clock w (ticks w)) /\
    Update w book_id book_data =
    (Returned (Some (of_row row)),
     mkWorld (replace_row book_id row (table w)) (clock w) (S (ticks w))).
Proof.
  intros E Hs. pose proof (find_row_id _ _ _ E) as Hid.
  destruct (to_row_storable r book_data (clock w (ticks w)) Hs)
    as (row & T & Hrow).
  exists row. split; [|split; [exact Hrow|]].
  - rewrite (to_row_id _ _ _ T). exact Hid.
  - rewrite Update_eq, E, T. now rewrite <- Hid, Row_id_int64.
Qed.

Lemma storable_empty : storable BookUpdate.empty = true.
Proof. reflexivity. Qed.

(** * The claims *)




(** C2, as stated, fails: when the clock reads the same at the update as
    it did when the record was written, [update_book] with the empty
    payload leaves [updated_at] as it was. *)
Lemma update_book_same_timestamp :
  exists b b',
    fst (GetOne (snd (Create (empty_store stopped_clock) dune)) 1)
      = Returned (Some b) /\
    fst (Update (snd (Create (empty_store stopped_clock) dune)) 1
                BookUpdate.empty) = Returned (Some b') /\
    Book.updated_at b' = Book.updated_at b.
Proof.
  eexists. eexists. split; [reflexivity|]. split; reflexivity.
Qed.

(** C2, amended: for every stored record, [update_book] with the empty
    payload sets [updated_at] to the reading of the clock at the update
    (so it changes when that reading differs from the stored value) and
    leaves every other field of the record exactly as it was, in the
    returned record and in the one that is stored. *)
Theorem update_book_empty_payload w book_id b :
  fst (GetOne w book_id) = Returned (Some b) ->
  exists b' w',
    Update w book_id BookUpdate.empty = (Returned (Some b'), w') /\
    GetOne w' book_id = (Returned (Some b'), w') /\
    Book.updated_at b' = clock w (ticks w) /\
    (clock w (ticks w) <> Book.updated_at b ->
     Book.updated_at b' <> Book.updated_at b) /\
    Book.id b' = Book.id b /\
    Book.title b' = Book.title b /\
    Book.author b' = Book.author b /\
    Book.year b' = Book.year b /\
    Book.price b' = Book.price b /\
    Book.in_stock b' = Book.in_stock b /\
    Book.description b' = Book.description b /\
    Book.created_at b' = Book.created_at b.
Proof.
  intros Hb. apply GetOne_stored in Hb as (r & E & ->).
  destruct (Update_storable w book_id r _ E storable_empty)
    as (row & Hid & Hrow & ->).
  eexists. eexists. split; [reflexivity|].
  split; [now apply (GetOne_after_update w book_id r)|].
  rewrite Hrow. cbn. repeat split. congruence.
Qed.

Lemma update_book_empty_payload_witness :
  exists b' w',
    Update world1 1 BookUpdate.empty = (Returned (Some b'), w') /\
    GetOne w' 1 = (Returned (Some b'), w') /\
    Book.updated_at b' = 2 /\
    (2 <> 1 -> Book.updated_at b' <> 1) /\
    Book.id b' = Some 1 /\
    Book.title b' = Some "Dune"%string /\
    Book.author b' = Some "Herbert"%string /\
    Book.year b' = Some 1965 /\
    Book.price b' = Some 12.5%float /\
    Book.in_stock b' = Some true /\
    Book.description b' = None /\
    Book.created_at b' = 0.
Proof.
  apply (update_book_empty_payload world1 1 dune1). reflexivity.
Defined.

(** C3, as stated, fails: for an id outside the 64-bit range, which no
    record can have, the three functions raise [OverflowError] at the
    lookup. *)
Lemma lookup_id_too_large :
  ~ In (2 ^ 63) (ids world0) /\
  fst (GetOne world0 (2 ^ 63)) = Raised OverflowError /\
  fst (Update world0 (2 ^ 63) BookUpdate.empty) = Raised OverflowError /\
  fst (Delete world0 (2 ^ 63)) = Raised OverflowError.
Proof. split; [intros []|]. repeat split. Qed.

(** C3, amended: for an id within the 64-bit range with no row in
    storage, [get_book], [update_book] and [delete_book] return [None],
    [None] and [False]; none of them raises. *)
Theorem not_found_is_returned w book_id book_data :
  int64 book_id ->
  ~ In book_id (ids w) ->
  fst (GetOne w book_id) = Returned None /\
  fst (Update w book_id book_data) = Returned None /\
  fst (Delete w book_id) = Returned false.
Proof.
  intros Hi H. apply in_int64_spec in Hi. apply find_row_None in H.
  rewrite GetOne_eq, Update_eq, Delete_eq, Hi, H. repeat split.
Qed.

Lemma not_found_is_returned_witness :
  fst (GetOne world1 7) = Returned None /\
  fst (Update world1 7 (BookUpdate.only_price 9.5%float)) = Returned None /\
  fst (Delete world1 7) = Returned false.
Proof.
  apply (not_found_is_returned world1 7 (BookUpdate.only_price 9.5%float)).
  - unfold int64. lia.
  - vm_compute. intros [H|[]]. discriminate H.
Defined.




(** C5: whenever [create_book] returns a record, [get_book] on the
    identifier of that record, with nothing in between, yields that
    record. *)
Theorem create_then_get w book b w' :
  Create w book = (Returned b, w') ->
  exists book_id,
    Book.id b = Some book_id /\
    GetOne w' book_id = (Returned (Some b), w').
Proof.
  rewrite Create_eq. destruct (new_row w book) as [row|e] eqn:N;
    [|discriminate].
  intros [= <- <-]. exists (Row.id row). split; [reflexivity|].
  apply GetOne_found. cbn [table].
  rewrite find_row_app, (new_row_id _ _ _ N), find_row_next_id.
  now rewrite Z.eqb_refl.
Qed.

Lemma create_then_get_witness :
  exists book_id,
    Book.id dune1 = Some book_id /\
    GetOne world1 book_id = (Returned (Some dune1), world1).
Proof.
  apply (create_then_get world0 dune dune1 world1). reflexivity.
Defined.

(** C6: when [delete_book] returns [True], [get_book] on the same id
    right after returns [None]. *)
Theorem delete_then_get_none w book_id :
  fst (Delete w book_id) = Returned true ->
  fst (GetOne (snd (Delete w book_id)) book_id) = Returned None.
Proof.
  rewrite Delete_eq. destruct (in_int64 book_id) eqn:Hin; [|discriminate].
  destruct (find_row book_id (table w)) as [r|]; [|discriminate].
  intros _. rewrite GetOne_eq, Hin. cbn [fst snd table].
  now rewrite find_row_delete, Z.eqb_refl.
Qed.

Lemma delete_then_get_none_witness :
  fst (GetOne (snd (Delete world1 1)) 1) = Returned None.
Proof.
  apply (delete_then_get_none world1 1). reflexivity.
Defined.

(** C7, as stated, fails: under a clock that steps back between two
    readings, Dune is stored with [updated_at] earlier than
    [created_at]. *)
Lemma created_after_updated :
  exists b,
    fst (GetOne (run [OpCreate dune] (empty_store backward_clock)) 1)
      = Returned (Some b) /\
    Book.updated_at b < Book.created_at b.
Proof. eexists. split; [reflexivity|]. reflexivity. Qed.

(** C7, amended: after any sequence of Create, Update and Delete
    requests on a new store, every stored record has
    [updated_at >= created_at] provided the clock does not go back; and,
    whatever the clock, the identifiers are pairwise distinct and no
    request changes the identifier of a stored record: a Create adds one
    identifier that no record has (or none, when it raises), an Update
    changes none, a Delete removes the one it was given, and the record
    an Update returns has the identifier it had before. *)
Theorem timestamps_ordered_ids_stable c ops :
  let w := run ops (empty_store c) in
  (nondecreasing c ->
   forall row, In row (table w) ->
               Row.created_at row <= Row.updated_at row) /\
  List.NoDup (ids w) /\
  (forall op,
     match op with
     | OpCreate _ =>
         ids (step w op) = ids w \/
         exists k, ~ In k (ids w) /\ ids (step w op) = ids w ++ [k]
     | OpUpdate _ _ => ids (step w op) = ids w
     | OpDelete book_id =>
         ids (step w op) = List.filter (fun k => negb (k =? book_id)) (ids w)
     end) /\
  (forall book_id book_data b b',
     fst (GetOne w book_id) = Returned (Some b) ->
     fst (Update w book_id book_data) = Returned (Some b') ->
     Book.id b = Some book_id /\ Book.id b' = Book.id b).
Proof.
  intros w. split; [|split; [|split]].
  - intros Hc. apply stamped_ordered.
    + unfold w. now rewrite run_clock.
    + apply run_stamped, empty_store_stamped.
  - apply run_NoDup. constructor.
  - apply step_ids.
  - intros book_id book_data b b' Hb. apply GetOne_stored in Hb as (r & E & ->).
    rewrite Update_eq, E. pose proof (find_row_id _ _ _ E) as Hid.
    destruct (in_int64 book_id); [|discriminate].
    destruct (to_row _ _) as [row|] eqn:T; [|discriminate].
    intros [= <-]. cbn [of_row Book.id].
    rewrite Hid, (to_row_id _ _ _ T). fold (Row.id r). rewrite Hid.
    now split.
Qed.

(** C8, as stated, fails: with [limit = -1] on a store of one record
    [get_books] returns that record, which is more than [limit]
    records. *)
Lemma get_books_negative_limit :
  exists bs,
    fst (GetPage world1 0 (-1)) = Returned bs /\
    length bs = 1%nat /\
    ~ (Z.of_nat (length bs) <= -1).
Proof.
  eexists. split; [reflexivity|]. split; [reflexivity|]. cbn. lia.
Qed.

(** C8, amended: for every offset and limit from 0 up to the largest
    64-bit integer, on a table whose keys are distinct, [get_books]
    returns at most [limit] records: the stored records from position
    [offset] on, in storage order. *)
Theorem get_books_page w offset limit :
  List.NoDup (ids w) ->
  0 <= offset < 2 ^ 63 ->
  0 <= limit < 2 ^ 63 ->
  exists bs,
    GetPage w offset limit = (Returned bs, w) /\
    bs = map of_row
           (firstn (Z.to_nat limit) (skipn (Z.to_nat offset) (table w))) /\
    Z.of_nat (length bs) <= limit.
Proof.
  intros Hnd Ho Hl. rewrite (GetPage_eq _ _ _ Hnd), select_eq.
  replace (in_int64 offset) with true
    by (symmetry; apply in_int64_spec; unfold int64; lia).
  replace (in_int64 limit) with true
    by (symmetry; apply in_int64_spec; unfold int64; lia).
  cbn [andb]. unfold sql_limit, sql_offset.
  destruct (Z.ltb_spec limit 0) as [|_]; [lia|].
  eexists. split; [reflexivity|]. split; [reflexivity|].
  rewrite length_map. pose proof (firstn_le_length (Z.to_nat limit)
    (skipn (Z.to_nat offset) (table w))). lia.
Qed.

Lemma get_books_page_witness :
  exists bs,
    GetPage world1 0 10 = (Returned bs, world1) /\
    bs = map of_row (firstn 10 (skipn 0 (table world1))) /\
    Z.of_nat (length bs) <= 10.
Proof.
  apply (get_books_page world1 0 10).
  - vm_compute. constructor; [intros [] | constructor].
  - lia.
  - lia.
Defined.




(** C10, as stated, fails: for an id outside the 64-bit range, which no
    record can have, [update_book] and [delete_book] do not return: the
    lookup raises [OverflowError]. *)
Lemma not_found_id_too_large :
  ~ In (2 ^ 63) (ids world1) /\
  update_book (2 ^ 63) BookUpdate.empty (mkSession world1 []) =
    (Raised OverflowError, mkSession world1 []) /\
  delete_book (2 ^ 63) (mkSession world1 []) =
    (Raised OverflowError, mkSession world1 []).
Proof.
  split; [|split; reflexivity].
  vm_compute. intros [H|[]]. discriminate H.
Qed.

(** C10, amended: for every id with no row in storage, [update_book] and
    [delete_book] leave the stored state as it was.  When the id is
    within the 64-bit range they return ([None] and [False]) right after
    the lookup: the session holds no object, the clock was not read,
    nothing was flushed.  When it is outside, the lookup raises
    [OverflowError], again before anything is written. *)
Theorem not_found_changes_nothing w book_id book_data :
  ~ In book_id (ids w) ->
  snd (Update w book_id book_data) = w /\
  snd (Delete w book_id) = w /\
  (int64 book_id ->
   update_book book_id book_data (mkSession w []) =
     (Returned None, mkSession w []) /\
   delete_book book_id (mkSession w []) =
     (Returned false, mkSession w [])) /\
  (~ int64 book_id ->
   update_book book_id book_data (mkSession w []) =
     (Raised OverflowError, mkSession w []) /\
   delete_book book_id (mkSession w []) =
     (Raised OverflowError, mkSession w [])).
Proof.
  intros H. apply find_row_None in H.
  rewrite Update_eq, Delete_eq, H.
  unfold update_book, delete_book, mbind, SessionM_bind.
  rewrite session_get_fresh, H.
  split; [now destruct (in_int64 book_id)|].
  split; [now destruct (in_int64 book_id)|].
  split; intros Hi.
  - apply in_int64_spec in Hi. now rewrite Hi.
  - destruct (in_int64 book_id) eqn:E; [|now split].
    apply in_int64_spec in E. contradiction.
Qed.

Lemma not_found_changes_nothing_witness :
  snd (Update world1 7 (BookUpdate.only_price 9.5%float)) = world1 /\
  snd (Delete world1 7) = world1 /\
  (int64 7 ->
   update_book 7 (BookUpdate.only_price 9.5%float) (mkSession world1 []) =
     (Returned None, mkSession world1 []) /\
   delete_book 7 (mkSession world1 []) =
     (Returned false, mkSession world1 [])) /\
  (~ int64 7 ->
   update_book 7 (BookUpdate.only_price 9.5%float) (mkSession world1 []) =
     (Raised OverflowError, mkSession world1 []) /\
   delete_book 7 (mkSession world1 []) =
     (Raised OverflowError, mkSession world1 [])).
Proof.
  apply (not_found_changes_nothing world1 7 (BookUpdate.only_price 9.5%float)).
  vm_compute. intros [H|[]]. discriminate H.
Defined.

(** * Beyond the claims *)

(** ** More on the table *)

Lemma find_row_some_iff pk tbl :
  In pk (map Row.id tbl) <-> exists r, find_row pk tbl = Some r.
Proof.
  destruct (find_row pk tbl) as [r|] eqn:E.
  - split; [now exists r|]. intros _.
    rewrite <- (find_row_id _ _ _ E). apply in_map, (find_row_In _ _ _ E).
  - apply find_row_None in E. split; [contradiction|]. now intros [r [=]].
Qed.

Lemma find_row_unique tbl r :
  List.NoDup (map Row.id tbl) -> In r tbl ->
  find_row (Row.id r) tbl = Some r.
Proof.
  unfold find_row. induction tbl as [|r' tbl IH]; intros Hnd Hin; [destruct Hin|].
  cbn in Hnd |- *. inversion Hnd as [|? ? Hnotin Hnd']; subst.
  destruct Hin as [->|Hin]; [now rewrite Z.eqb_refl|].
  destruct (Z.eqb_spec (Row.id r') (Row.id r)) as [E|_]; [|now apply IH].
  exfalso. apply Hnotin. rewrite E. now apply in_map.
Qed.

Lemma delete_row_absent pk tbl :
  find_row pk tbl = None -> delete_row pk tbl = tbl.
Proof.
  unfold find_row, delete_row. induction tbl as [|r tbl IH]; [reflexivity|].
  cbn. destruct (Row.id r =? pk); [discriminate|].
  cbn. intros H. now rewrite IH.
Qed.

Lemma delete_row_app pk tbl tbl' :
  delete_row pk (tbl ++ tbl') = delete_row pk tbl ++ delete_row pk tbl'.
Proof. unfold delete_row. apply List.filter_app. Qed.

Lemma length_delete_row pk tbl r :
  List.NoDup (map Row.id tbl) -> find_row pk tbl = Some r ->
  S (length (delete_row pk tbl)) = length tbl.
Proof.
  unfold find_row, delete_row.
  induction tbl as [|r' tbl IH]; intros Hnd E; [discriminate|].
  cbn in Hnd, E |- *. inversion Hnd as [|? ? Hnotin Hnd']; subst.
  destruct (Z.eqb_spec (Row.id r') pk) as [Hpk|Hpk]; cbn.
  - f_equal. fold (delete_row pk tbl). rewrite delete_row_absent; [reflexivity|].
    apply find_row_None. now rewrite <- Hpk.
  - f_equal. now apply IH.
Qed.

(** ** Reads leave the world alone *)

Lemma for_all_world {A B} (f : A -> SessionM B) :
  (forall x s, world (snd (f x s)) = world s) ->
  forall l s, world (snd (for_all l f s)) = world s.
Proof.
  intros Hf. induction l as [|x l IH]; intros s; [reflexivity|].
  cbn [for_all]. unfold mbind, SessionM_bind.
  specialize (Hf x s). destruct (f x s) as [[y|e] s1]; cbn in Hf |- *;
    [|exact Hf].
  specialize (IH s1). destruct (for_all l f s1) as [[ys|e] s2]; cbn in IH |- *;
    congruence.
Qed.

Lemma load_world row s : world (snd (load row s)) = world s.
Proof.
  unfold load. now destruct (identity_lookup _ _ _).
Qed.

Lemma read_world r s : world (snd (read r s)) = world s.
Proof.
  unfold read. now destruct (objects s !! r).
Qed.

Lemma GetPage_world w offset limit : snd (GetPage w offset limit) = w.
Proof.
  unfold GetPage, get_session, read_all, get_books, session_exec_all.
  unfold mbind, SessionM_bind. cbn [world].
  destruct (select_offset_limit offset limit (table w)) as [rows|e];
    [|reflexivity].
  pose proof (for_all_world load load_world rows (mkSession w [])) as H1.
  cbn [world] in *.
  destruct (for_all _ load _) as [[rs|e] s1]; cbn in H1 |- *; [|exact H1].
  pose proof (for_all_world read read_world rs s1) as H2.
  destruct (for_all rs read s1) as [o s2]. cbn in H2 |- *. congruence.
Qed.

Lemma GetOne_world w book_id : snd (GetOne w book_id) = w.
Proof. rewrite GetOne_eq. now destruct (in_int64 book_id). Qed.

(** X10: [get_book] and [get_books] are reads: whatever the id, the
    offset and the limit, the world after the request is the world
    before it (no row written, no clock reading consumed). *)
Theorem reads_change_nothing w book_id offset limit :
  snd (GetOne w book_id) = w /\ snd (GetPage w offset limit) = w.
Proof.
  split; [apply GetOne_world | apply GetPage_world].
Qed.

(** ** Frames *)

Lemma Create_table w book :
  table (snd (Create w book)) = table w \/
  exists row, new_row w book = Returned row /\
              table (snd (Create w book)) = table w ++ [row].
Proof.
  rewrite Create_eq. destruct (new_row w book) as [row|e]; [right|now left].
  now exists row.
Qed.

(** X2: [create_book] leaves the records already stored as they are:
    [get_book] on the id of any of them gives the same answer after the
    creation as before. *)
Theorem create_book_keeps_others w book book_id :
  In book_id (ids w) ->
  fst (GetOne (snd (Create w book)) book_id) = fst (GetOne w book_id).
Proof.
  intros H. apply find_row_some_iff in H as [r E].
  rewrite !GetOne_eq. destruct (in_int64 book_id); [|reflexivity].
  cbn [fst]. destruct (Create_table w book) as [->|(row & _ & ->)];
    [reflexivity|].
  now rewrite find_row_app, E.
Qed.

Lemma create_book_keeps_others_witness :
  fst (GetOne (snd (Create world1 dune)) 1) = fst (GetOne world1 1).
Proof.
  apply (create_book_keeps_others world1 dune 1).
  vm_compute. left. reflexivity.
Defined.

(** X6: [update_book] touches no record but its own: whatever the
    payload and the outcome, [get_book] on any other id gives the same
    answer after the update as before. *)
Theorem update_book_keeps_others w book_id book_data other :
  other <> book_id ->
  fst (GetOne (snd (Update w book_id book_data)) other) =
  fst (GetOne w other).
Proof.
  intros Hne. rewrite (Update_eq w).
  destruct (in_int64 book_id); [|reflexivity].
  destruct (find_row book_id (table w)) as [r|] eqn:E; [|reflexivity].
  destruct (to_row _ _) as [row|] eqn:T; rewrite !GetOne_eq;
    destruct (in_int64 other); cbn [fst snd table]; try reflexivity.
  rewrite (find_row_replace _ _ _ _
             (eq_trans (to_row_id _ _ _ T) (find_row_id _ _ _ E))).
  destruct (Z.eqb_spec other book_id); [contradiction|reflexivity].
Qed.

Lemma update_book_keeps_others_witness :
  fst (GetOne (snd (Update (snd (Create world1 dune)) 2
                           (BookUpdate.only_price 9.5%float))) 1) =
  fst (GetOne (snd (Create world1 dune)) 1).
Proof.
  apply (update_book_keeps_others (snd (Create world1 dune)) 2
           (BookUpdate.only_price 9.5%float) 1).
  discriminate.
Defined.

(** X8: [delete_book] removes no record but its own: [get_book] on any
    other id gives the same answer after the deletion as before. *)
Theorem delete_book_keeps_others w book_id other :
  other <> book_id ->
  fst (GetOne (snd (Delete w book_id)) other) = fst (GetOne w other).
Proof.
  intros Hne. rewrite (Delete_eq w).
  destruct (in_int64 book_id); [|reflexivity].
  destruct (find_row book_id (table w)) as [r|]; [|reflexivity].
  rewrite !GetOne_eq. destruct (in_int64 other); [|reflexivity].
  cbn [fst snd table]. rewrite find_row_delete.
  destruct (Z.eqb_spec other book_id); [contradiction|reflexivity].
Qed.

Lemma delete_book_keeps_others_witness :
  fst (GetOne (snd (Delete (snd (Create world1 dune)) 2)) 1) =
  fst (GetOne (snd (Create world1 dune)) 1).
Proof.
  apply (delete_book_keeps_others (snd (Create world1 dune)) 2 1).
  discriminate.
Defined.


(** ** Pages and lookups *)

Lemma NoDup_same (x : Z) l :
  List.NoDup l -> (forall k, In k l -> k = x) -> (length l <= 1)%nat.
Proof.
  intros Hnd Hx. destruct l as [|y [|z l]]; cbn; [lia|lia|].
  exfalso. inversion Hnd as [|? ? Hy _]; subst. apply Hy. left.
  rewrite (Hx y), (Hx z); cbn; auto.
Qed.

Lemma filter_split (f : Z -> bool) l :
  (length l =
   length (List.filter f l) + length (List.filter (fun k => negb (f k)) l))%nat.
Proof.
  induction l as [|x l IH]; [reflexivity|].
  cbn. destruct (f x); cbn; lia.
Qed.

(** Distinct integers of an interval are no more than the interval has. *)
Lemma NoDup_bounded (n : nat) : forall (a : Z) (l : list Z),
  List.NoDup l ->
  (forall k, In k l -> a <= k < a + Z.of_nat n) ->
  (length l <= n)%nat.
Proof.
  induction n as [|n IH]; intros a l Hnd Hl.
  - destruct l as [|k l]; [reflexivity|].
    specialize (Hl k (or_introl eq_refl)). lia.
  - set (f := fun k : Z => k =? a + Z.of_nat n).
    rewrite (filter_split f l).
    assert (H1 : (length (List.filter f l) <= 1)%nat).
    { apply (NoDup_same (a + Z.of_nat n)); [now apply List.NoDup_filter|].
      intros k Hk. apply List.filter_In in Hk as [_ Hk].
      now apply Z.eqb_eq. }
    assert (H2 : (length (List.filter (fun k => negb (f k)) l) <= n)%nat).
    { apply (IH a); [now apply List.NoDup_filter|].
      intros k Hk. apply List.filter_In in Hk as [Hk Hne].
      apply negb_true_iff, Z.eqb_neq in Hne.
      specialize (Hl k Hk). lia. }
    lia.
Qed.

(** A table holds fewer than 2^63 rows. *)
Lemma count_int64 w :
  List.NoDup (ids w) -> in_int64 (Z.of_nat (count w)) = true.
Proof.
  intros Hnd.
  assert (H : (length (ids w) <= Z.to_nat (2 ^ 63 - 1))%nat).
  { apply (NoDup_bounded _ 1); [exact Hnd|].
    intros k Hk. unfold ids in Hk. apply in_map_iff in Hk as (r & <- & _).
    pose proof (Row_id_rowid r) as Hr. unfold in_rowid in Hr.
    rewrite Z2Nat.id by lia. lia. }
  unfold ids in H. rewrite length_map in H. fold (count w) in H.
  apply in_int64_spec. unfold int64.
  apply Nat2Z.inj_le in H. rewrite Z2Nat.id in H by lia. lia.
Qed.

Lemma In_page offset limit tbl r :
  In r (sql_limit limit (sql_offset offset tbl)) -> In r tbl.
Proof.
  unfold sql_limit, sql_offset. intros Hr.
  rewrite <- (firstn_skipn (Z.to_nat offset) tbl).
  apply in_or_app. right. destruct (limit <? 0); [exact Hr|].
  rewrite <- (firstn_skipn (Z.to_nat limit) (skipn _ tbl)).
  apply in_or_app. now left.
Qed.

(** X13: pages and lookups agree.  On a table whose keys are distinct,
    every record of a page is the record [get_book] returns for its id;
    and every record [get_book] can return is in the page that starts at
    offset 0 with the number of stored records as its limit. *)
Theorem get_books_agrees_with_get_book w offset limit :
  List.NoDup (ids w) ->
  (forall bs b,
     fst (GetPage w offset limit) = Returned bs -> In b bs ->
     exists book_id,
       Book.id b = Some book_id /\
       fst (GetOne w book_id) = Returned (Some b)) /\
  (forall book_id b,
     fst (GetOne w book_id) = Returned (Some b) ->
     exists bs,
       fst (GetPage w 0 (Z.of_nat (count w))) = Returned bs /\ In b bs).
Proof.
  intros Hnd. split.
  - intros bs b. rewrite (GetPage_eq _ _ _ Hnd), select_eq.
    destruct (in_int64 offset && in_int64 limit); [|discriminate].
    cbn [fst]. intros [= <-] Hin. apply in_map_iff in Hin as (r & <- & Hr).
    exists (Row.id r). split; [reflexivity|].
    rewrite (GetOne_found w (Row.id r) r); [reflexivity|].
    apply find_row_unique; [exact Hnd|]. exact (In_page _ _ _ _ Hr).
  - intros book_id b Hb. apply GetOne_stored in Hb as (r & E & ->).
    rewrite (GetPage_eq _ _ _ Hnd), select_eq.
    rewrite (count_int64 w Hnd).
    replace (in_int64 0) with true by reflexivity. cbn [andb fst].
    eexists. split; [reflexivity|].
    apply in_map. unfold sql_limit, sql_offset, count.
    destruct (Z.ltb_spec (Z.of_nat (length (table w))) 0); [lia|].
    cbn [Z.to_nat skipn]. rewrite Nat2Z.id, firstn_all.
    exact (find_row_In _ _ _ E).
Qed.

Lemma get_books_agrees_with_get_book_witness :
  (forall bs b,
     fst (GetPage world1 0 10) = Returned bs -> In b bs ->
     exists book_id,
       Book.id b = Some book_id /\
       fst (GetOne world1 book_id) = Returned (Some b)) /\
  (forall book_id b,
     fst (GetOne world1 book_id) = Returned (Some b) ->
     exists bs,
       fst (GetPage world1 0 (Z.of_nat (count world1))) = Returned bs /\
       In b bs).
Proof.
  apply (get_books_agrees_with_get_book world1 0 10).
  vm_compute. constructor; [intros [] | constructor].
Defined.

(** ** Responses *)

Lemma BookRead_of_row r :
  BookRead_from_orm (of_row r) =
  Some (BookRead.mk (Row.id r) (Row.title r) (Row.author r)
                    (int_val (Row.year r)) (real_val (Row.price r))
                    (Row.in_stock r) (Row.description r)
                    (Row.created_at r) (Row.updated_at r)).
Proof. reflexivity. Qed.

(** X15: whatever [create_book], [get_book], [update_book] and
    [get_books] return validates as a [BookRead]: no returned record
    lacks its id or another required field.  (For [get_books], on a
    table whose keys are distinct.) *)
Theorem responses_fit_BookRead w :
  (forall book b,
     fst (Create w book) = Returned b ->
     exists r, BookRead_from_orm b = Some r) /\
  (forall book_id b,
     fst (GetOne w book_id) = Returned (Some b) ->
     exists r, BookRead_from_orm b = Some r /\ BookRead.id r = book_id) /\
  (forall book_id book_data b,
     fst (Update w book_id book_data) = Returned (Some b) ->
     exists r, BookRead_from_orm b = Some r /\ BookRead.id r = book_id) /\
  (forall offset limit bs,
     List.NoDup (ids w) ->
     fst (GetPage w offset limit) = Returned bs ->
     Forall (fun b => exists r, BookRead_from_orm b = Some r) bs).
Proof.
  repeat split.
  - intros book b. rewrite Create_eq.
    destruct (new_row w book) as [row|e]; [|discriminate].
    intros [= <-]. rewrite BookRead_of_row. now eexists.
  - intros book_id b Hb. apply GetOne_stored in Hb as (r & E & ->).
    rewrite BookRead_of_row. eexists. split; [reflexivity|].
    exact (find_row_id _ _ _ E).
  - intros book_id book_data b. rewrite Update_eq.
    destruct (in_int64 book_id); [|discriminate].
    destruct (find_row book_id (table w)) as [r|] eqn:E; [|discriminate].
    destruct (to_row _ _) as [row|] eqn:T; [|discriminate].
    intros [= <-]. rewrite BookRead_of_row. eexists. split; [reflexivity|].
    cbn. rewrite (to_row_id _ _ _ T). exact (find_row_id _ _ _ E).
  - intros offset limit bs Hnd. rewrite (GetPage_eq _ _ _ Hnd), select_eq.
    destruct (in_int64 offset && in_int64 limit); [|discriminate].
    intros [= <-]. apply List.Forall_forall. intros b Hb.
    apply in_map_iff in Hb as (r & <- & _).
    rewrite BookRead_of_row. now eexists.
Qed.

(** ** More invariants of histories *)

Lemma stamped_apart_later w tbl n :
  (ticks w <= n)%nat ->
  (forall row, In row tbl -> In row (table w)) ->
  stamped_apart w -> stamped_apart (mkWorld tbl (clock w) n).
Proof.
  intros Hn Hsub Hw row Hin. cbn in *.
  destruct (Hw row (Hsub row Hin)) as (j & k & Hjk & Hk & Hc & Hu).
  exists j, k. repeat split; [lia | lia | exact Hc | exact Hu].
Qed.

Lemma step_stamped_apart w op : stamped_apart w -> stamped_apart (step w op).
Proof.
  intros Hw. destruct op as [book|book_id book_data|book_id]; cbn [step].
  - rewrite Create_eq. destruct (new_row w book) as [new|e] eqn:N; cbn [snd].
    + intros row Hin. cbn in Hin |- *.
      apply in_app_or in Hin as [Hin|[<-|[]]].
      * destruct (Hw row Hin) as (j & k & Hjk & Hk & Hc & Hu).
        exists j, k. repeat split; [lia | lia | exact Hc | exact Hu].
      * destruct (new_row_stamps _ _ _ N) as [Hc Hu].
        exists (ticks w), (S (ticks w)). repeat split; [lia|lia|easy|easy].
    + apply stamped_apart_later; [lia | auto | exact Hw].
  - rewrite Update_eq. destruct (in_int64 book_id); [|exact Hw].
    destruct (find_row _ _) as [r|] eqn:E; [|exact Hw].
    destruct (to_row _ _) as [row|] eqn:T; cbn [snd].
    + intros r' Hin. cbn in Hin |- *.
      apply In_replace_row in Hin as [[-> _]|Hin].
      * destruct (Hw r (find_row_In _ _ _ E)) as (j & k & Hjk & Hk & Hc & _).
        exists j, (ticks w). rewrite (to_row_created_at _ _ _ T).
        rewrite (to_row_updated_at _ _ _ T), updated_eq. cbn.
        repeat split; [lia | lia | exact Hc].
      * destruct (Hw r' Hin) as (j & k & Hjk & Hk & Hc & Hu).
        exists j, k. repeat split; [lia | lia | exact Hc | exact Hu].
    + apply stamped_apart_later; [lia | auto | exact Hw].
  - rewrite Delete_eq. destruct (in_int64 book_id); [|exact Hw].
    destruct (find_row _ _); [|exact Hw]. cbn [snd].
    apply stamped_apart_later; [lia | | exact Hw].
    intros row Hin. unfold delete_row in Hin.
    now apply List.filter_In in Hin.
Qed.

Lemma run_stamped_apart ops : forall w,
  stamped_apart w -> stamped_apart (run ops w).
Proof.
  induction ops as [|op ops IH]; intros w Hw; [exact Hw|].
  cbn [run fold_left]. apply IH, step_stamped_apart, Hw.
Qed.

(** X16: under a clock that advances between readings, after any
    sequence of Create, Update and Delete requests on a new store, every
    stored record has [created_at < updated_at], both earlier than the
    clock's next reading; and every update that succeeds moves
    [updated_at] strictly forward and keeps [created_at]. *)
Theorem timestamps_apart c ops :
  increasing c ->
  let w := run ops (empty_store c) in
  (forall book_id b,
     fst (GetOne w book_id) = Returned (Some b) ->
     Book.created_at b < Book.updated_at b /\
     Book.updated_at b < clock w (ticks w)) /\
  (forall book_id book_data b b',
     fst (GetOne w book_id) = Returned (Some b) ->
     fst (Update w book_id book_data) = Returned (Some b') ->
     Book.updated_at b < Book.updated_at b' /\
     Book.created_at b' = Book.created_at b).
Proof.
  intros Hc w.
  assert (Hclock : clock w = c) by (unfold w; now rewrite run_clock).
  assert (Hw : stamped_apart w).
  { apply run_stamped_apart. intros row []. }
  assert (Hrow : forall book_id r,
             find_row book_id (table w) = Some r ->
             Row.created_at r < Row.updated_at r /\
             Row.updated_at r < clock w (ticks w)).
  { intros book_id r E.
    destruct (Hw r (find_row_In _ _ _ E)) as (j & k & Hjk & Hk & -> & ->).
    rewrite Hclock. split; now apply Hc. }
  split.
  - intros book_id b Hb. apply GetOne_stored in Hb as (r & E & ->).
    exact (Hrow _ _ E).
  - intros book_id book_data b b' Hb.
    apply GetOne_stored in Hb as (r & E & ->).
    rewrite Update_eq, E. destruct (in_int64 book_id); [|discriminate].
    destruct (to_row _ _) as [row|] eqn:T; [|discriminate].
    intros [= <-]. cbn [of_row Book.updated_at Book.created_at].
    rewrite (to_row_updated_at _ _ _ T), (to_row_created_at _ _ _ T).
    rewrite updated_eq. cbn. split; [|reflexivity].
    exact (proj2 (Hrow _ _ E)).
Qed.

Lemma timestamps_apart_witness :
  let w := run [OpCreate dune; OpUpdate 1 BookUpdate.empty] world0 in
  (forall book_id b,
     fst (GetOne w book_id) = Returned (Some b) ->
     Book.created_at b < Book.updated_at b /\
     Book.updated_at b < clock w (ticks w)) /\
  (forall book_id book_data b b',
     fst (GetOne w book_id) = Returned (Some b) ->
     fst (Update w book_id book_data) = Returned (Some b') ->
     Book.updated_at b < Book.updated_at b' /\
     Book.created_at b' = Book.created_at b).
Proof.
  apply (timestamps_apart Z.of_nat
           [OpCreate dune; OpUpdate 1 BookUpdate.empty]).
  intros m n H. lia.
Defined.

(** ** What one request can do to a record *)

(** X20: no single request changes the identity of a record that
    survives it: if [get_book] finds a record under an id before a
    Create, Update or Delete request and finds one under the same id
    after it, the two have the same [id] and the same [created_at]; and
    unless the request was an update of that id, they are the same
    record. *)
Theorem requests_keep_created_at w op book_id b b' :
  fst (GetOne w book_id) = Returned (Some b) ->
  fst (GetOne (step w op) book_id) = Returned (Some b') ->
  Book.id b' = Book.id b /\
  Book.created_at b' = Book.created_at b /\
  (match op with
   | OpUpdate book_id' _ => book_id' <> book_id
   | _ => True
   end -> b' = b).
Proof.
  intros Hb. apply GetOne_stored in Hb as (r & E & ->).
  rewrite GetOne_eq. destruct (in_int64 book_id); [|discriminate].
  cbn [fst].
  destruct op as [book|book_id' book_data|book_id']; cbn [step].
  - destruct (Create_table w book) as [->|(row & _ & ->)].
    + rewrite E. intros [= <-]. auto.
    + rewrite find_row_app, E. intros [= <-]. auto.
  - rewrite Update_eq. destruct (in_int64 book_id');
      [|cbn [snd]; rewrite E; intros [= <-]; auto].
    destruct (find_row book_id' (table w)) as [r'|] eqn:E';
      [|cbn [snd]; rewrite E; intros [= <-]; auto].
    destruct (to_row _ _) as [row|] eqn:T; cbn [snd table];
      [|rewrite E; intros [= <-]; auto].
    pose proof (eq_trans (to_row_id _ _ _ T) (find_row_id _ _ _ E')) as Hrow.
    rewrite (find_row_replace _ _ _ _ Hrow).
    destruct (Z.eqb_spec book_id book_id') as [<-|Hne].
    + rewrite E in E'. injection E' as <-. rewrite E.
      cbn [option_map fmap option_fmap].
      intros [= <-]. cbn [of_row Book.id Book.created_at].
      rewrite Hrow, (find_row_id _ _ _ E).
      rewrite (to_row_created_at _ _ _ T), updated_eq. cbn.
      repeat split. intros Hne. contradiction.
    + rewrite E. intros [= <-]. auto.
  - rewrite Delete_eq. destruct (in_int64 book_id');
      [|cbn [snd]; rewrite E; intros [= <-]; auto].
    destruct (find_row book_id' (table w)) as [r'|];
      [|cbn [snd]; rewrite E; intros [= <-]; auto].
    cbn [snd table]. rewrite find_row_delete.
    destruct (book_id =? book_id'); [discriminate|].
    rewrite E. intros [= <-]. auto.
Qed.

Lemma requests_keep_created_at_witness :
  Book.id (Book.mk (Some 1) (Some "Dune"%string) (Some "Herbert"%string)
                   (Some 1965) (Some 9.5%float) (Some true) None 0 2) =
  Some 1 /\
  Book.created_at
    (Book.mk (Some 1) (Some "Dune"%string) (Some "Herbert"%string)
             (Some 1965) (Some 9.5%float) (Some true) None 0 2) = 0 /\
  (1 <> 1 ->
   Book.mk (Some 1) (Some "Dune"%string) (Some "Herbert"%string)
           (Some 1965) (Some 9.5%float) (Some true) None 0 2 =
   Book.mk (Some 1) (Some "Dune"%string) (Some "Herbert"%string)
           (Some 1965) (Some 12.5%float) (Some true) None 0 1).
Proof.
  apply (requests_keep_created_at world1
           (OpUpdate 1 (BookUpdate.only_price 9.5%float)) 1
           (Book.mk (Some 1) (Some "Dune"%string) (Some "Herbert"%string)
                    (Some 1965) (Some 12.5%float) (Some true) None 0 1)
           (Book.mk (Some 1) (Some "Dune"%string) (Some "Herbert"%string)
                    (Some 1965) (Some 9.5%float) (Some true) None 0 2)).
  - reflexivity.
  - reflexivity.
Defined.


(** ** Creating *)






(** X3: when two creations in a row both return, the two records have
    different ids, and both can be read back afterwards. *)
Theorem create_book_twice w book1 book2 b1 w1 b2 w2 :
  Create w book1 = (Returned b1, w1) ->
  Create w1 book2 = (Returned b2, w2) ->
  exists id1 id2,
    Book.id b1 = Some id1 /\ Book.id b2 = Some id2 /\
    id1 <> id2 /\
    fst (GetOne w2 id1) = Returned (Some b1) /\
    fst (GetOne w2 id2) = Returned (Some b2).
Proof.
  rewrite Create_eq.
  destruct (new_row w book1) as [r1|] eqn:N1; [|discriminate].
  intros [= <- <-]. rewrite Create_eq.
  destruct (new_row _ book2) as [r2|] eqn:N2; [|discriminate].
  intros [= <- <-].
  exists (Row.id r1), (Row.id r2).
  split; [reflexivity|]. split; [reflexivity|].
  pose proof (new_row_id _ _ _ N1) as E1.
  pose proof (new_row_id _ _ _ N2) as E2. cbn [table] in E2.
  assert (Hlt : Row.id r1 < Row.id r2).
  { rewrite E2. apply next_id_above. rewrite map_app.
    apply in_or_app. right. now left. }
  assert (H1 : find_row (Row.id r1) (table w) = None)
    by (rewrite E1; apply find_row_next_id).
  assert (H2 : find_row (Row.id r2) (table w ++ [r1]) = None)
    by (rewrite E2; apply find_row_next_id).
  split; [lia|].
  rewrite !GetOne_eq, !Row_id_int64. cbn [fst table].
  rewrite (find_row_app (Row.id r2)), H2, Z.eqb_refl.
  rewrite (find_row_app (Row.id r1)), (find_row_app (Row.id r1)), H1.
  rewrite Z.eqb_refl. now split.
Qed.

Lemma create_book_twice_witness :
  exists id1 id2,
    Book.id dune1 = Some id1 /\
    Book.id (Book.mk (Some 2) (Some "Dune"%string) (Some "Herbert"%string)
                     (Some 1965) (Some 12.5%float) (Some true) None 2 3)
      = Some id2 /\
    id1 <> id2 /\
    fst (GetOne (snd (Create world1 dune)) id1) = Returned (Some dune1) /\
    fst (GetOne (snd (Create world1 dune)) id2) =
    Returned (Some (Book.mk (Some 2) (Some "Dune"%string)
                            (Some "Herbert"%string) (Some 1965)
                            (Some 12.5%float) (Some true) None 2 3)).
Proof.
  apply (create_book_twice world0 dune dune dune1 world1); reflexivity.
Defined.

(** X4: when [create_book] returns a record, deleting that record right
    after succeeds and gives back the table as it was before the
    creation; only the clock has moved. *)
Theorem create_then_delete w book b w' :
  Create w book = (Returned b, w') ->
  exists book_id,
    Book.id b = Some book_id /\
    Delete w' book_id =
      (Returned true, mkWorld (table w) (clock w) (S (S (ticks w)))).
Proof.
  rewrite Create_eq.
  destruct (new_row w book) as [row|] eqn:N; [|discriminate].
  intros [= <- <-]. exists (Row.id row). split; [reflexivity|].
  pose proof (new_row_id _ _ _ N) as E.
  rewrite Delete_eq, Row_id_int64. cbn [table clock ticks].
  rewrite find_row_app, E, find_row_next_id, <- E, Z.eqb_refl.
  rewrite delete_row_app, E.
  rewrite (delete_row_absent _ _ (find_row_next_id (table w))).
  unfold delete_row. cbn [List.filter]. rewrite <- E, Z.eqb_refl.
  cbn [negb]. now rewrite app_nil_r.
Qed.

Lemma create_then_delete_witness :
  exists book_id,
    Book.id dune1 = Some book_id /\
    Delete world1 book_id =
      (Returned true, mkWorld (table world0) (clock world0) 2).
Proof.
  apply (create_then_delete world0 dune dune1 world1). reflexivity.
Defined.



(** ** Updating and deleting *)






(** X9: a second [delete_book] on the same id never returns [True] and
    changes nothing, whether the first one found a record or not: for
    an id that fits in 64 bits it returns [False], and for any other id
    it raises [OverflowError], as the first one did. *)
Theorem delete_book_twice w book_id :
  Delete (snd (Delete w book_id)) book_id =
  (if in_int64 book_id then Returned false else Raised OverflowError,
   snd (Delete w book_id)).
Proof.
  rewrite (Delete_eq w). destruct (in_int64 book_id) eqn:Hin.
  - destruct (find_row book_id (table w)) as [r|] eqn:E; cbn [snd].
    + rewrite Delete_eq, Hin. cbn [table].
      now rewrite find_row_delete, Z.eqb_refl.
    + now rewrite Delete_eq, Hin, E.
  - cbn [snd]. now rewrite Delete_eq, Hin.
Qed.

(** X14: on a table whose keys are distinct, a [create_book] that
    returns adds exactly one record and one that raises adds none,
    [update_book] keeps their number whatever its outcome, a
    [delete_book] that returns [True] removes exactly one, and one that
    returns [False] removes none. *)
Theorem record_counts w book book_id book_data :
  List.NoDup (ids w) ->
  (forall b, fst (Create w book) = Returned b ->
             count (snd (Create w book)) = S (count w)) /\
  (forall e, fst (Create w book) = Raised e ->
             count (snd (Create w book)) = count w) /\
  count (snd (Update w book_id book_data)) = count w /\
  (fst (Delete w book_id) = Returned true ->
   S (count (snd (Delete w book_id))) = count w) /\
  (fst (Delete w book_id) = Returned false ->
   count (snd (Delete w book_id)) = count w).
Proof.
  intros Hnd. unfold count. repeat split.
  - intros b. rewrite Create_eq. destruct (new_row w book); [|discriminate].
    intros _. cbn. rewrite length_app. cbn. lia.
  - intros e. rewrite Create_eq. destruct (new_row w book); [discriminate|].
    reflexivity.
  - rewrite Update_eq. destruct (in_int64 book_id); [|reflexivity].
    destruct (find_row _ _); [|reflexivity].
    destruct (to_row _ _); [|reflexivity].
    cbn. unfold replace_row. apply length_map.
  - rewrite Delete_eq. destruct (in_int64 book_id); [|discriminate].
    destruct (find_row book_id (table w)) as [r|] eqn:E; [|discriminate].
    intros _. cbn. now apply (length_delete_row _ _ r).
  - rewrite Delete_eq. destruct (in_int64 book_id); [|discriminate].
    destruct (find_row book_id (table w)) as [r|] eqn:E; [discriminate|].
    reflexivity.
Qed.

Lemma record_counts_witness :
  (forall b, fst (Create world1 dune) = Returned b ->
             count (snd (Create world1 dune)) = S (count world1)) /\
  (forall e, fst (Create world1 dune) = Raised e ->
             count (snd (Create world1 dune)) = count world1) /\
  count (snd (Update world1 1 BookUpdate.empty)) = count world1 /\
  (fst (Delete world1 1) = Returned true ->
   S (count (snd (Delete world1 1))) = count world1) /\
  (fst (Delete world1 1) = Returned false ->
   count (snd (Delete world1 1)) = count world1).
Proof.
  apply (record_counts world1 dune 1 BookUpdate.empty).
  vm_compute. constructor; [intros [] | constructor].
Defined.

(** ** Pages *)

Lemma in_int64_bounds z : - 2 ^ 63 <= z < 2 ^ 63 -> in_int64 z = true.
Proof. intros H. now apply in_int64_spec. Qed.

(** X11: consecutive pages fit together: for an offset and limits [m]
    and [n] that are not negative, with [offset + m] and [m + n] below
    2^63, on a table whose keys are distinct, the page of [m] records
    at [offset] followed by the page of [n] records at [offset + m] is
    the page of [m + n] records at [offset]; no record is skipped or
    repeated. *)
Theorem get_books_pages_concatenate w offset m n :
  List.NoDup (ids w) ->
  0 <= offset -> 0 <= m -> 0 <= n ->
  offset + m < 2 ^ 63 -> m + n < 2 ^ 63 ->
  exists p q,
    fst (GetPage w offset m) = Returned p /\
    fst (GetPage w (offset + m) n) = Returned q /\
    fst (GetPage w offset (m + n)) = Returned (p ++ q).
Proof.
  intros Hnd Ho Hm Hn Hom Hmn.
  rewrite !(GetPage_eq _ _ _ Hnd), !select_eq.
  rewrite !in_int64_bounds by lia. cbn [andb fst].
  eexists. eexists. split; [reflexivity|]. split; [reflexivity|].
  rewrite <- map_app. do 2 f_equal.
  unfold sql_limit, sql_offset.
  destruct (Z.ltb_spec m 0); [lia|].
  destruct (Z.ltb_spec n 0); [lia|].
  destruct (Z.ltb_spec (m + n) 0); [lia|].
  rewrite !Z2Nat.inj_add by lia.
  rewrite <- (take_take_drop _ (Z.to_nat m) (Z.to_nat n)).
  now rewrite drop_drop.
Qed.

Lemma get_books_pages_concatenate_witness :
  exists p q,
    fst (GetPage (snd (Create world1 dune)) 0 1) = Returned p /\
    fst (GetPage (snd (Create world1 dune)) (0 + 1) 1) = Returned q /\
    fst (GetPage (snd (Create world1 dune)) 0 (1 + 1)) = Returned (p ++ q).
Proof.
  apply (get_books_pages_concatenate (snd (Create world1 dune)) 0 1 1).
  - vm_compute. constructor; [intros [H|[]]; discriminate H|].
    constructor; [intros [] | constructor].
  - lia.
  - lia.
  - lia.
  - lia.
  - lia.
Defined.

Lemma GetPage_nil w offset limit :
  select_offset_limit offset limit (table w) = Returned [] ->
  GetPage w offset limit = (Returned [], w).
Proof.
  intros E.
  unfold GetPage, get_session, read_all, get_books, session_exec_all.
  unfold mbind, SessionM_bind. cbn [world table]. now rewrite E.
Qed.

(** X12: for an offset and a limit that fit in 64 bits, a page that
    starts at or past the end of the table, and a page of limit 0, are
    empty lists, not faults. *)
Theorem get_books_empty_page w offset limit :
  int64 offset -> int64 limit ->
  Z.of_nat (count w) <= offset \/ limit = 0 ->
  GetPage w offset limit = (Returned [], w).
Proof.
  intros Ho Hl H. apply GetPage_nil. rewrite select_eq.
  rewrite (proj2 (in_int64_spec _) Ho), (proj2 (in_int64_spec _) Hl).
  cbn [andb]. f_equal. unfold sql_limit, sql_offset, count in *.
  destruct H as [H| ->].
  - rewrite skipn_all2 by lia. now destruct (limit <? 0), (Z.to_nat limit).
  - reflexivity.
Qed.

Lemma get_books_empty_page_witness :
  GetPage world1 1 10 = (Returned [], world1).
Proof.
  apply (get_books_empty_page world1 1 10).
  - unfold int64. lia.
  - unfold int64. lia.
  - left. vm_compute. discriminate.
Defined.



(** ** The order of the records *)

Lemma StronglySorted_snoc (l : list Z) k :
  StronglySorted Z.lt l -> Forall (fun x => x < k) l ->
  StronglySorted Z.lt (l ++ [k]).
Proof.
  induction l as [|x l IH]; intros Hs Hk; cbn.
  - repeat constructor.
  - inversion Hs as [|? ? Hs' Hx]; subst.
    inversion Hk as [|? ? Hxk Hk']; subst.
    constructor; [now apply IH|].
    apply Forall_app. split; [exact Hx | now constructor].
Qed.

Lemma StronglySorted_filter (f : Z -> bool) l :
  StronglySorted Z.lt l -> StronglySorted Z.lt (List.filter f l).
Proof.
  induction l as [|x l IH]; intros Hs; [constructor|].
  inversion Hs as [|? ? Hs' Hx]; subst. cbn.
  destruct (f x); [|now apply IH].
  constructor; [now apply IH|].
  apply List.Forall_forall. intros y Hy. apply List.filter_In in Hy as [Hy _].
  rewrite List.Forall_forall in Hx. now apply Hx.
Qed.

Lemma ids_positive w : Forall (fun k => 1 <= k) (ids w).
Proof.
  apply List.Forall_forall. intros k Hk.
  apply in_map_iff in Hk as (r & <- & _).
  pose proof (Row_id_rowid r) as H. unfold in_rowid in H.
  apply andb_prop in H as [H _]. now apply Z.leb_le.
Qed.

Lemma step_ascending w op :
  StronglySorted Z.lt (ids w) -> StronglySorted Z.lt (ids (step w op)).
Proof.
  intros Hs. pose proof (step_ids w op) as Hop.
  destruct op as [book|book_id book_data|book_id].
  - cbn [step] in *. unfold ids in *.
    destruct (Create_table w book) as [->|(row & N & ->)]; [exact Hs|].
    rewrite map_app. apply StronglySorted_snoc; [exact Hs|].
    apply List.Forall_forall. intros k Hk. cbn [map].
    rewrite (new_row_id _ _ _ N). now apply next_id_above.
  - now rewrite Hop.
  - rewrite Hop. now apply StronglySorted_filter.
Qed.

Lemma run_ascending ops : forall w,
  StronglySorted Z.lt (ids w) -> StronglySorted Z.lt (ids (run ops w)).
Proof.
  induction ops as [|op ops IH]; intros w Hw; [exact Hw|].
  cbn [run fold_left]. apply IH, step_ascending, Hw.
Qed.

Lemma StronglySorted_app_l (l l' : list Z) :
  StronglySorted Z.lt (l ++ l') -> StronglySorted Z.lt l.
Proof.
  induction l as [|x l IH]; intros Hs; [constructor|].
  cbn in Hs. inversion Hs as [|? ? Hs' Hx]; subst.
  constructor; [now apply IH|].
  apply Forall_app in Hx. tauto.
Qed.

Lemma StronglySorted_app_r (l l' : list Z) :
  StronglySorted Z.lt (l ++ l') -> StronglySorted Z.lt l'.
Proof.
  induction l as [|x l IH]; intros Hs; [exact Hs|].
  cbn in Hs. inversion Hs; subst. now apply IH.
Qed.

Lemma page_ascending offset limit tbl :
  StronglySorted Z.lt (map Row.id tbl) ->
  StronglySorted Z.lt (map Row.id (sql_limit limit (sql_offset offset tbl))).
Proof.
  intros H. unfold sql_limit, sql_offset.
  assert (H1 : StronglySorted Z.lt (map Row.id (skipn (Z.to_nat offset) tbl))).
  { rewrite <- (firstn_skipn (Z.to_nat offset) tbl), map_app in H.
    now apply StronglySorted_app_r in H. }
  destruct (limit <? 0); [exact H1|].
  rewrite <- (firstn_skipn (Z.to_nat limit) (skipn _ tbl)), map_app in H1.
  now apply StronglySorted_app_l in H1.
Qed.

(** X17: after any sequence of Create, Update and Delete requests on a
    new store, the stored ids are at least 1 and ascend in storage
    order; [get_books] returns a page for every offset and limit that
    fit in 64 bits, and every page it returns lists its records by
    ascending id. *)
Theorem ids_ascending c ops offset limit :
  let w := run ops (empty_store c) in
  StronglySorted Z.lt (ids w) /\
  Forall (fun k => 1 <= k) (ids w) /\
  (in_int64 offset && in_int64 limit = true ->
   exists bs, fst (GetPage w offset limit) = Returned bs) /\
  (forall bs,
     fst (GetPage w offset limit) = Returned bs ->
     exists ks,
       map Book.id bs = map Some ks /\
       StronglySorted Z.lt ks).
Proof.
  intros w.
  assert (Hs : StronglySorted Z.lt (ids w)).
  { apply run_ascending. constructor. }
  assert (Hnd : List.NoDup (ids w)) by (apply run_NoDup; constructor).
  split; [exact Hs|]. split; [apply ids_positive|].
  rewrite (GetPage_eq _ _ _ Hnd), select_eq. split.
  - intros ->. now eexists.
  - intros bs. destruct (in_int64 offset && in_int64 limit); [|discriminate].
    intros [= <-].
    exists (map Row.id (sql_limit limit (sql_offset offset (table w)))).
    split; [now rewrite !map_map|].
    now apply page_ascending.
Qed.
